(** * DynamoDB identity wrapper: paginated scan, override aggregation, lookups

    A shallow embedding of
    [api/environments/dynamodb/wrappers/identity_wrapper.py]
    (class [DynamoIdentityWrapper]) and the properties its design document
    states about it.

    Conventions of the embedding.
    - Items and documents are Python values of the shapes DynamoDB hands
      back: [None], booleans, numbers, strings, lists and dicts ([value]).
    - A Python [str] is a [string], one character per code point; the model
      keeps the code points below 256.  [len] counts characters
      ([py_len]); the UTF-8 encoding takes one byte for a code point below
      128 and two bytes from 128 on ([utf8_length]).
    - Capacity units are Python floats, that is binary64 numbers ([float]),
      added with rounding as Python adds them; a capacity budget is a
      [Decimal], an exact decimal number ([Q]) or [Decimal("Inf")], and a
      float is compared with it by its exact value.
    - Exceptions are values of [exn]; fallible code returns [result].
    - The table's [query] is a state-passing oracle
      [St -> QueryInput -> QueryOutput * St]; a response always has its
      [Items], and transport failures of the store are outside the model.
    - A generator is run to exhaustion with fuel, one unit per pass through
      the [while] loop, and leaves the trace of what it did. *)

From Stdlib Require Import ZArith QArith Floats String Ascii List Bool Lia.
From stdpp Require Import base option list gmap strings.
Import ListNotations.

Local Open Scope string_scope.
Local Open Scope Z_scope.

(** ** Python values *)

#[local] Set Warnings "-register-all".

Inductive value : Type :=
| VNone
| VBool (b : bool)
| VNum (n : Z)
| VStr (s : string)
| VList (l : list value)
| VDict (d : list (string * value)).

(** [Decimal] budgets: a finite amount or [Decimal("Inf")]. *)
Inductive budget : Type :=
| Finite (b : Q)
| Inf.

Inductive exn : Type :=
| KeyError (key : string)
| IndexError
| TypeError
| AttributeError
| ValueError (msg : string)
| ObjectDoesNotExist
| NotFound
| ClientError (code : string)
| ValidationError
| InvalidOperation
| CapacityBudgetExceeded (capacity_budget : budget) (capacity_spent : float).

Inductive result (A : Type) : Type :=
| Ok (a : A)
| Raise (e : exn).
Arguments Ok {A} a.
Arguments Raise {A} e.

#[global] Instance result_ret : MRet result := fun A a => Ok a.
#[global] Instance result_bind : MBind result := fun A B k r =>
  match r with
  | Ok a => k a
  | Raise e => Raise e
  end.

(** [try: r except e: handler] for one exception class without payload. *)
Definition except_ {A : Type} (is_e : exn -> bool) (r : result A)
    (handler : result A) : result A :=
  match r with
  | Ok a => Ok a
  | Raise e => if is_e e then handler else Raise e
  end.

Definition is_IndexError (e : exn) : bool :=
  match e with IndexError => true | _ => false end.
Definition is_ObjectDoesNotExist (e : exn) : bool :=
  match e with ObjectDoesNotExist => true | _ => false end.

(** Python truthiness. *)
Definition truthy (v : value) : bool :=
  match v with
  | VNone => false
  | VBool b => b
  | VNum n => negb (n =? 0)
  | VStr s => negb (String.eqb s "")
  | VList l => match l with [] => false | _ => true end
  | VDict d => match d with [] => false | _ => true end
  end.

Fixpoint assoc (d : list (string * value)) (k : string) : option value :=
  match d with
  | [] => None
  | (k', v) :: d' => if String.eqb k' k then Some v else assoc d' k
  end.

(** [v[k]] for a string key [k]. *)
Definition py_getitem (v : value) (k : string) : result value :=
  match v with
  | VDict d => match assoc d k with Some x => Ok x | None => Raise (KeyError k) end
  | _ => Raise TypeError
  end.

(** [v.get(k, default)]. *)
Definition py_get (v : value) (k : string) (default : value) : result value :=
  match v with
  | VDict d => Ok (match assoc d k with Some x => x | None => default end)
  | _ => Raise AttributeError
  end.

Fixpoint chars (s : string) : list value :=
  match s with
  | EmptyString => []
  | String c s' => VStr (String c EmptyString) :: chars s'
  end.

(** The elements a [for] loop or a comprehension sees. *)
Definition py_iter (v : value) : result (list value) :=
  match v with
  | VList l => Ok l
  | VDict d => Ok (map (fun kv => VStr (fst kv)) d)
  | VStr s => Ok (chars s)
  | _ => Raise TypeError
  end.

(** [len(v)]. *)
Definition py_len (v : value) : result Z :=
  match v with
  | VStr s => Ok (Z.of_nat (String.length s))
  | VList l => Ok (Z.of_nat (List.length l))
  | VDict d => Ok (Z.of_nat (List.length d))
  | _ => Raise TypeError
  end.

(** Length in bytes of the UTF-8 encoding of a string. *)
Fixpoint utf8_length (s : string) : Z :=
  match s with
  | EmptyString => 0
  | String c s' => (if (nat_of_ascii c <? 128)%nat then 1 else 2) + utf8_length s'
  end.

(** Hashable values as members of a [set] and keys of a [dict]: Python
    compares [True] and [1] equal (and hashes them alike); lists and dicts
    are unhashable. *)
Inductive hkey : Type :=
| HNone
| HNum (n : Z)
| HStr (s : string).

Definition py_hash (v : value) : result hkey :=
  match v with
  | VNone => Ok HNone
  | VBool b => Ok (HNum (if b then 1 else 0))
  | VNum n => Ok (HNum n)
  | VStr s => Ok (HStr s)
  | VList _ | VDict _ => Raise TypeError
  end.

#[global] Instance hkey_eq_dec : EqDecision hkey.
Proof. solve_decision. Defined.

#[global] Instance hkey_countable : Countable hkey.
Proof.
  refine (inj_countable'
    (fun k => match k with
              | HNone => inl ()
              | HNum n => inr (inl n)
              | HStr s => inr (inr s)
              end)
    (fun x => match x with
              | inl _ => HNone
              | inr (inl n) => HNum n
              | inr (inr s) => HStr s
              end) _).
  intros []; reflexivity.
Defined.

(** ** The store's query interface *)

(** Conditions built with [boto3.dynamodb.conditions]: [Key(name).eq(v)] and
    [Attr(name).ne(v)]. *)
Inductive condition : Type :=
| KeyEq (name : string) (v : value)
| AttrNe (name : string) (v : value).

(** The attribute [name] of an item. *)
Definition attr (item : value) (name : string) : option value :=
  match item with
  | VDict d => assoc d name
  | _ => None
  end.

(** What a condition means for an item, as the store evaluates it. *)
Definition cond_holds (c : condition) (item : value) : Prop :=
  match c with
  | KeyEq name v => attr item name = Some v
  | AttrNe name v => attr item name <> Some v
  end.

(** The keyword arguments of [table.query]; an absent keyword is [None]. *)
Record QueryInput : Type := {
  IndexName : string;
  KeyConditionExpression : condition;
  Limit : Z;
  ExclusiveStartKey : option value;
  FilterExpression : option condition;
  ProjectionExpression : option string;
  ReturnConsumedCapacity : option string
}.

(** A page.  [ConsumedCapacity] is [None] when the response has no such key,
    [Some None] when it has one without [CapacityUnits]. *)
Record QueryOutput : Type := {
  Items : list value;
  LastEvaluatedKey : option value;
  ConsumedCapacity : option (option float)
}.

(** The keyword arguments [iter_all_items_paginated] keeps in
    [get_all_items_kwargs]; [filter_expression] and [start_key] are absent
    until they are set. *)
Record get_all_items_kwargs : Type := {
  environment_api_key : string;
  limit : Z;
  projection_expression : option string;
  return_consumed_capacity : bool;
  filter_expression : option condition;
  start_key : option value
}.

Definition with_start_key (kw : get_all_items_kwargs) (k : value)
    : get_all_items_kwargs :=
  {| environment_api_key := environment_api_key kw;
     limit := limit kw;
     projection_expression := projection_expression kw;
     return_consumed_capacity := return_consumed_capacity kw;
     filter_expression := filter_expression kw;
     start_key := Some k |}.

(** [if x:] on an optional keyword: kept only when present and truthy. *)
Definition if_truthy {A : Type} (t : A -> bool) (o : option A) : option A :=
  match o with
  | Some a => if t a then Some a else None
  | None => None
  end.

(** The [query_kwargs] that [get_all_items] assembles. *)
Definition get_all_items_query (kw : get_all_items_kwargs) : QueryInput :=
  {| IndexName := "environment_api_key-identifier-index";
     KeyConditionExpression :=
       KeyEq "environment_api_key" (VStr (environment_api_key kw));
     Limit := limit kw;
     ExclusiveStartKey := if_truthy truthy (start_key kw);
     FilterExpression := filter_expression kw;
     ProjectionExpression :=
       if_truthy (fun s => negb (String.eqb s "")) (projection_expression kw);
     ReturnConsumedCapacity :=
       if return_consumed_capacity kw then Some "TOTAL" else None |}.

(** The exact value of the finite binary64 number with sign [s], mantissa
    [m] and exponent [e]. *)
Definition Q_of_finite (s : bool) (m : positive) (e : Z) : Q :=
  let n := if s then Z.neg m else Z.pos m in
  match e with
  | Z0 => inject_Z n
  | Zpos p => inject_Z (n * Z.pow_pos 2 p)
  | Zneg p => Qmake n (Pos.pow 2 p)
  end.

(** [capacity_spent >= capacity_budget], a float against a [Decimal].
    Python compares the two by their exact values; an infinite float is at
    least any [Decimal], [Decimal("Inf")] included; on a NaN the comparison
    raises [decimal.InvalidOperation]. *)
Definition compare_budget (capacity_spent : float) (capacity_budget : budget)
    : result bool :=
  match Prim2SF capacity_spent with
  | S754_nan => Raise InvalidOperation
  | S754_infinity negative => Ok (negb negative)
  | S754_zero _ =>
      Ok (match capacity_budget with
          | Finite b => Qle_bool b 0
          | Inf => false
          end)
  | S754_finite s m e =>
      Ok (match capacity_budget with
          | Finite b => Qle_bool b (Q_of_finite s m e)
          | Inf => false
          end)
  end.

(** The scan does not get past the budget check: the comparison holds, or
    it cannot be made. *)
Definition budget_reached (capacity_spent : float) (capacity_budget : budget)
    : bool :=
  match compare_budget capacity_spent capacity_budget with
  | Ok false => false
  | _ => true
  end.

(** [capacity_budget != Decimal("Inf")]. *)
Definition budget_is_finite (capacity_budget : budget) : bool :=
  match capacity_budget with
  | Finite _ => true
  | Inf => false
  end.

(** [with suppress(KeyError):
       capacity_spent += query_response["ConsumedCapacity"]["CapacityUnits"]]. *)
Definition add_capacity (capacity_spent : float) (r : QueryOutput) : float :=
  match ConsumedCapacity r with
  | Some (Some units) => (capacity_spent + units)%float
  | _ => capacity_spent
  end.

(** [if last_evaluated_key := query_response.get("LastEvaluatedKey")]. *)
Definition has_continuation (r : QueryOutput) : bool :=
  match LastEvaluatedKey r with
  | Some k => truthy k
  | None => false
  end.

(** ** Traces of a scan *)

Inductive event : Type :=
| EvQuery (q : QueryInput) (r : QueryOutput)
| EvYield (item : value).

Inductive scan_outcome : Type :=
| Exhausted               (* the generator returned *)
| Raised (e : exn)        (* the generator raised *)
| Suspended.              (* out of fuel: the loop is still running *)

Fixpoint queries (tr : list event) : list QueryInput :=
  match tr with
  | [] => []
  | EvQuery q _ :: tr' => q :: queries tr'
  | EvYield _ :: tr' => queries tr'
  end.

Fixpoint responses (tr : list event) : list QueryOutput :=
  match tr with
  | [] => []
  | EvQuery _ r :: tr' => r :: responses tr'
  | EvYield _ :: tr' => responses tr'
  end.

Fixpoint yields (tr : list event) : list value :=
  match tr with
  | [] => []
  | EvQuery _ _ :: tr' => yields tr'
  | EvYield item :: tr' => item :: yields tr'
  end.

(** What one page contributes to the trace: the request with its response,
    then the items in the order of the page. *)
Definition page_events (q : QueryInput) (r : QueryOutput) : list event :=
  EvQuery q r :: map EvYield (Items r).

Section Wrapper.

Context {St : Type}.

(** [self.table.query] with its keyword arguments, threading the state of
    the store. *)
Variable table_query : St -> QueryInput -> QueryOutput * St.

Definition query_items (s : St) (q : QueryInput) : QueryOutput * St :=
  table_query s q.

Definition get_all_items (s : St) (kw : get_all_items_kwargs)
    : QueryOutput * St :=
  query_items s (get_all_items_query kw).

Record scan_run : Type := {
  trace : list event;
  outcome : scan_outcome;
  spent : float;          (* [capacity_spent] when the run stopped *)
  store : St
}.

Definition emit (evs : list event) (r : scan_run) : scan_run :=
  {| trace := evs ++ trace r; outcome := outcome r;
     spent := spent r; store := store r |}.

(** The [while last_evaluated_key:] loop, entered with a truthy
    [last_evaluated_key]. *)
Fixpoint scan_loop (fuel : nat) (capacity_budget : budget) (s : St)
    (kw : get_all_items_kwargs) (capacity_spent : float) : scan_run :=
  match fuel with
  | O => {| trace := []; outcome := Suspended;
            spent := capacity_spent; store := s |}
  | S fuel' =>
      match compare_budget capacity_spent capacity_budget with
      | Raise e =>
        {| trace := []; outcome := Raised e;
           spent := capacity_spent; store := s |}
      | Ok true =>
        {| trace := [];
           outcome := Raised (CapacityBudgetExceeded capacity_budget capacity_spent);
           spent := capacity_spent; store := s |}
      | Ok false =>
        let query_response := get_all_items s kw in
        let r := fst query_response in
        let s' := snd query_response in
        let capacity_spent' := add_capacity capacity_spent r in
        emit (page_events (get_all_items_query kw) r)
          match LastEvaluatedKey r with
          | Some last_evaluated_key =>
              if truthy last_evaluated_key then
                scan_loop fuel' capacity_budget s'
                  (with_start_key kw last_evaluated_key) capacity_spent'
              else
                {| trace := []; outcome := Exhausted;
                   spent := capacity_spent'; store := s' |}
          | None =>
              {| trace := []; outcome := Exhausted;
                 spent := capacity_spent'; store := s' |}
          end
      end
  end.

Definition initial_kwargs (environment_api_key : string) (limit : Z)
    (projection_expression : option string) (capacity_budget : budget)
    (overrides_only : bool) : get_all_items_kwargs :=
  {| environment_api_key := environment_api_key;
     limit := limit;
     projection_expression := projection_expression;
     return_consumed_capacity := budget_is_finite capacity_budget;
     filter_expression :=
       if overrides_only then Some (AttrNe "identity_features" (VList []))
       else None;
     start_key := None |}.

Definition iter_all_items_paginated (fuel : nat) (s : St)
    (environment_api_key : string) (limit : Z)
    (projection_expression : option string) (capacity_budget : budget)
    (overrides_only : bool) : scan_run :=
  scan_loop fuel capacity_budget s
    (initial_kwargs environment_api_key limit projection_expression
       capacity_budget overrides_only) 0%float.

(** *** Lookup by uuid *)

Definition uuid_query (uuid : string) : QueryInput :=
  {| IndexName := "identity_uuid-index";
     KeyConditionExpression := KeyEq "identity_uuid" (VStr uuid);
     Limit := 1;
     ExclusiveStartKey := None;
     FilterExpression := None;
     ProjectionExpression := None;
     ReturnConsumedCapacity := None |}.

(** [l[0]]. *)
Definition first_item (l : list value) : result value :=
  match l with
  | item :: _ => Ok item
  | [] => Raise IndexError
  end.

Definition get_item_from_uuid (s : St) (uuid : string) : result value * St :=
  let query_response := query_items s (uuid_query uuid) in
  (except_ is_IndexError (first_item (Items (fst query_response)))
     (Raise ObjectDoesNotExist),
   snd query_response).

Definition get_item_from_uuid_or_404 (s : St) (uuid : string)
    : result value * St :=
  let r := get_item_from_uuid s uuid in
  (except_ is_ObjectDoesNotExist (fst r) (Raise NotFound), snd r).

(** *** Segment membership

    The flag engine and the environment wrapper are collaborators of the
    wrapper; they are taken as they come. *)

Variable IdentityModel : Type.
Variable EnvironmentModel : Type.
(** [IdentityModel.model_validate]. *)
Variable identity_model_validate : value -> result IdentityModel.
(** [identity.environment_api_key]. *)
Variable identity_environment_api_key : IdentityModel -> string.
(** [DynamoEnvironmentWrapper().get_item]. *)
Variable environment_get_item : St -> string -> result value * St.
(** [EnvironmentModel.model_validate]. *)
Variable environment_model_validate : value -> result EnvironmentModel.
(** [map_environment_identity_to_context], [get_context_segments] and the
    [segment.id] of each segment found. *)
Variable context_segment_ids :
  EnvironmentModel -> IdentityModel -> result (list Z).

Definition str_truthy (o : option string) : bool :=
  match o with
  | Some s => negb (String.eqb s "")
  | None => false
  end.

(** The body of [with suppress(ObjectDoesNotExist):]. *)
Definition resolve_segment_ids (s : St) (identity_pk : option string)
    (identity_model : option IdentityModel) : result (list Z) * St :=
  let found :=
    match identity_model with
    | Some m => (Ok m, s)
    | None =>
        let r := get_item_from_uuid s (default "" identity_pk) in
        (item ← fst r; identity_model_validate item, snd r)
    end in
  match fst found with
  | Raise e => (Raise e, snd found)
  | Ok identity =>
      let got := environment_get_item (snd found)
                   (identity_environment_api_key identity) in
      (document ← fst got;
       environment ← environment_model_validate document;
       context_segment_ids environment identity,
       snd got)
  end.

Definition get_segment_ids (s : St) (identity_pk : option string)
    (identity_model : option IdentityModel) : result (list Z) * St :=
  if negb (str_truthy identity_pk || bool_decide (is_Some identity_model)) then
    (Raise (ValueError "Must provide one of identity_pk or identity_model."), s)
  else
    let r := resolve_segment_ids s identity_pk identity_model in
    (except_ is_ObjectDoesNotExist (fst r) (Ok []), snd r).

(** *** Override aggregation *)

(** [IDENTITIES_PAGINATION_LIMIT] of [environments.dynamodb.constants]. *)
Variable IDENTITIES_PAGINATION_LIMIT : Z.

(** The members of [{read(f) for f in entries}], built entry by entry. *)
Fixpoint collect_set (read : value -> result value) (entries : list value)
    (acc : gset hkey) : result (gset hkey) :=
  match entries with
  | [] => Ok acc
  | f :: entries' =>
      v ← read f;
      k ← py_hash v;
      collect_set read entries' ({[ k ]} ∪ acc)
  end.

(** [len({f["feature_id"] for f in identity["identity_features"]})]. *)
Definition identity_overrides_count (identity : value) : result Z :=
  identity_features ← py_getitem identity "identity_features";
  entries ← py_iter identity_features;
  ids ← collect_set (fun f => py_getitem f "feature_id") entries ∅;
  Ok (Z.of_nat (size ids)).

(** [sum(f(x) for x in xs)]. *)
Fixpoint sum_over (f : value -> result Z) (xs : list value) (acc : Z)
    : result Z :=
  match xs with
  | [] => Ok acc
  | x :: xs' => n ← f x; sum_over f xs' (acc + n)
  end.

(** The result of a consumer that works through the items of a scan: its
    own exception if it raises on an item, otherwise whatever the scan
    ends with ([None] while the scan is still running). *)
Definition consume {A : Type} (run : scan_run) (body : list value -> result A)
    : option (result A) :=
  match body (yields (trace run)) with
  | Raise e => Some (Raise e)
  | Ok a =>
      match outcome run with
      | Exhausted => Some (Ok a)
      | Raised e => Some (Raise e)
      | Suspended => None
      end
  end.

Definition get_identity_overrides_count (fuel : nat) (s : St)
    (environment_api_key : string) : option (result Z) :=
  consume
    (iter_all_items_paginated fuel s environment_api_key
       IDENTITIES_PAGINATION_LIMIT None Inf true)
    (fun identities => sum_over identity_overrides_count identities 0).

(** [feature_override.get("feature", {}).get("id", 0)]. *)
Definition override_feature_id (feature_override : value) : result value :=
  feature ← py_get feature_override "feature" (VDict []);
  py_get feature "id" (VNum 0).

(** The [unique_feature_ids] of one identity. *)
Definition unique_feature_ids (identity : value) : result (gset hkey) :=
  identity_features ← py_get identity "identity_features" (VList []);
  entries ← py_iter identity_features;
  collect_set override_feature_id entries ∅.

(** [for feature_id in unique_feature_ids: ...]. *)
Definition count_identity (ids : gset hkey) (counts : gmap hkey Z)
    : gmap hkey Z :=
  set_fold (fun feature_id m =>
              <[ feature_id := default 0 (m !! feature_id) + 1 ]> m)
           counts ids.

Fixpoint feature_counts_loop (identities : list value)
    (feature_to_identity_count : gmap hkey Z) : result (gmap hkey Z) :=
  match identities with
  | [] => Ok feature_to_identity_count
  | identity :: identities' =>
      ids ← unique_feature_ids identity;
      feature_counts_loop identities'
        (count_identity ids feature_to_identity_count)
  end.

Definition get_identity_override_feature_counts (fuel : nat) (s : St)
    (environment_api_key : string) : option (result (gmap hkey Z)) :=
  consume
    (iter_all_items_paginated fuel s environment_api_key
       IDENTITIES_PAGINATION_LIMIT None Inf true)
    (fun identities => feature_counts_loop identities ∅).

End Wrapper.

(** ** Bulk writes *)

Section BulkWrite.

(** The Django [Identity] model and [util.mappers]'s
    [map_identity_to_identity_document] are not part of this file. *)
Variable Identity : Type.
Variable identity_id : Identity -> Z.
Variable map_identity_to_identity_document : Identity -> value.

(** What the batch writer was handed, oldest first, and the warnings
    logged (the [identity.id] of each). *)
Record batch : Type := {
  put_requests : list value;
  warnings : list Z
}.

Definition batch_put_item (b : batch) (Item : value) : batch :=
  {| put_requests := put_requests b ++ [Item]; warnings := warnings b |}.

Definition log_warning (b : batch) (id : Z) : batch :=
  {| put_requests := put_requests b; warnings := warnings b ++ [id] |}.

Fixpoint write_identities (identities : list Identity) (b : batch)
    : batch * result unit :=
  match identities with
  | [] => (b, Ok tt)
  | identity :: identities' =>
      let identity_document := map_identity_to_identity_document identity in
      match (identifier ← py_getitem identity_document "identifier";
             py_len identifier) with
      | Raise e => (b, Raise e)
      | Ok n =>
          if 1024 <? n then
            write_identities identities' (log_warning b (identity_id identity))
          else
            write_identities identities' (batch_put_item b identity_document)
      end
  end.

End BulkWrite.


(** ** Point writes and reads *)

(** Modelled from the spec: the table object behind [self.table] (set up by
    [BaseDynamoWrapper] in [.base]) is not part of this file's source.  The
    design document describes it as a key-value table with primary key
    [composite_key], where put is an upsert keyed by [composite_key] and
    get is a point lookup for which an absent key is not an error.  The
    table is a finite map from composite keys to items; a put of an item
    without a string [composite_key] is refused by the store. *)
Definition table_put_item (t : gmap string value) (Item : value)
    : result unit * gmap string value :=
  match attr Item "composite_key" with
  | Some (VStr k) => (Ok tt, <[ k := Item ]> t)
  | _ => (Raise (ClientError "ValidationException"), t)
  end.

(** Modelled from the spec: the response of the table's [get_item] is a dict
    with the key [Item] when the composite key is stored, and without it
    otherwise. *)
Definition table_get_item (t : gmap string value) (Key : value) : result value :=
  match attr Key "composite_key" with
  | Some (VStr k) =>
      Ok (match t !! k with
          | Some item => VDict [("Item", item)]
          | None => VDict []
          end)
  | _ => Raise (ClientError "ValidationException")
  end.

Definition put_item (t : gmap string value) (identity_dict : value)
    : result unit * gmap string value :=
  table_put_item t identity_dict.

Definition get_item (t : gmap string value) (composite_key : string)
    : result value :=
  response ← table_get_item t (VDict [("composite_key", VStr composite_key)]);
  py_get response "Item" VNone.

(** ** A store that plays back a sequence of pages

    The store answers its [n]-th query with the [n]-th page of a given
    sequence, whatever the request. *)

Definition scripted (pages : nat -> QueryOutput) (n : nat) (q : QueryInput)
    : QueryOutput * nat :=
  (pages n, S n).

(** The capacity the first [n] pages report, added up in page order. *)
Fixpoint spent_after (pages : nat -> QueryOutput) (n : nat) : float :=
  match n with
  | O => 0%float
  | S m => add_capacity (spent_after pages m) (pages m)
  end.

(** The keyword arguments in force when page [j] is requested. *)
Definition kwargs_at (kw0 : get_all_items_kwargs) (pages : nat -> QueryOutput)
    (j : nat) : get_all_items_kwargs :=
  match j with
  | O => kw0
  | S i =>
      match LastEvaluatedKey (pages i) with
      | Some k => with_start_key kw0 k
      | None => kw0
      end
  end.

(** The trace of requesting pages [i], ..., [i + n - 1] and yielding their
    items. *)
Definition scripted_trace (kw0 : get_all_items_kwargs)
    (pages : nat -> QueryOutput) (i n : nat) : list event :=
  concat (map (fun j => page_events (get_all_items_query (kwargs_at kw0 pages j))
                          (pages j))
              (seq i n)).

(** Each request but the first resumes where the page before it stopped. *)
Fixpoint chained (prev : option value) (tr : list event) : Prop :=
  match tr with
  | [] => True
  | EvQuery q r :: tr' =>
      ExclusiveStartKey q = prev /\ chained (LastEvaluatedKey r) tr'
  | EvYield _ :: tr' => chained prev tr'
  end.

(** The override list of an item is not the empty list. *)
Definition has_overrides (item : value) : bool :=
  match attr item "identity_features" with
  | Some (VList []) => false
  | _ => true
  end.

(** What every request of one scan has in common: the index, the partition
    key condition, the page limit, the filter and whether consumed capacity
    is to be reported. *)
Definition request_for (kw : get_all_items_kwargs) (q : QueryInput) : Prop :=
  IndexName q = "environment_api_key-identifier-index" /\
  KeyConditionExpression q
    = KeyEq "environment_api_key" (VStr (environment_api_key kw)) /\
  Limit q = limit kw /\
  FilterExpression q = filter_expression kw /\
  ReturnConsumedCapacity q
    = (if return_consumed_capacity kw then Some "TOTAL" else None).

(** ** Sample data *)

Definition override (feature_id : Z) : value :=
  VDict [("feature", VDict [("id", VNum feature_id)]); ("enabled", VBool true)].

Definition sample_identity (identifier : string) (overrides : list value)
    : value :=
  VDict [("composite_key", VStr ("env_" ++ identifier));
         ("environment_api_key", VStr "env");
         ("identifier", VStr identifier);
         ("identity_features", VList overrides)].

Definition sample_key : value := VDict [("composite_key", VStr "env_alice")].

(** Three pages of one identity each, one capacity unit per page. *)
Definition three_pages (j : nat) : QueryOutput :=
  {| Items := [sample_identity "alice" [override 1]];
     LastEvaluatedKey := if (j <? 2)%nat then Some sample_key else None;
     ConsumedCapacity := Some (Some 1%float) |}.

(** A store that reports consumed capacity only when asked to. *)
Definition metered (pages : nat -> QueryOutput) (n : nat) (q : QueryInput)
    : QueryOutput * nat :=
  ({| Items := Items (pages n);
      LastEvaluatedKey := LastEvaluatedKey (pages n);
      ConsumedCapacity :=
        match ReturnConsumedCapacity q with
        | Some _ => ConsumedCapacity (pages n)
        | None => None
        end |},
   S n).

(** A store that applies the filter of the scan to the page it holds. *)
Definition filtering (pages : nat -> QueryOutput) (n : nat) (q : QueryInput)
    : QueryOutput * nat :=
  ({| Items :=
        match FilterExpression q with
        | Some _ => List.filter has_overrides (Items (pages n))
        | None => Items (pages n)
        end;
      LastEvaluatedKey := LastEvaluatedKey (pages n);
      ConsumedCapacity := ConsumedCapacity (pages n) |},
   S n).

(** Pages that mix identities with and without overrides. *)
Definition mixed_pages (j : nat) : QueryOutput :=
  {| Items := [sample_identity "alice" [override 1];
               sample_identity "bob" []];
     LastEvaluatedKey := if (j <? 1)%nat then Some sample_key else None;
     ConsumedCapacity := None |}.

(** A store with one last page holding the given items. *)
Definition single_page (items : list value) (j : nat) : QueryOutput :=
  {| Items := items; LastEvaluatedKey := None; ConsumedCapacity := None |}.

(** An override entry as the identity document has it: the feature is an
    object with an [id]. *)
Definition feature_entry (id : Z) : value :=
  VDict [("feature", VDict [("id", VNum id)])].

(** An override entry with a top-level [feature_id] instead. *)
Definition feature_id_entry (id : Z) : value :=
  VDict [("feature_id", VNum id)].

(** The identity with the override list [{feature:1},{feature:1},{feature:2}]. *)
Definition identity_1_1_2 : value :=
  VDict [("composite_key", VStr "env_alice");
         ("identity_features",
          VList [feature_entry 1; feature_entry 1; feature_entry 2])].

Definition identity_1_1_2_flat : value :=
  VDict [("composite_key", VStr "env_alice");
         ("identity_features",
          VList [feature_id_entry 1; feature_id_entry 1; feature_id_entry 2])].

(** ** Sample identities for bulk writes *)

Record SampleIdentity : Type := {
  sample_id : Z;
  sample_identifier : string;
  sample_environment_api_key : string
}.

(** Modelled from the spec: [map_identity_to_identity_document] of
    [util.mappers] is not part of this file's source.  The design document
    gives an identity record the fields [composite_key] (of the form
    [<environment_api_key>_<identifier>]), [environment_api_key],
    [identifier] and [identity_features]. *)
Definition sample_document (i : SampleIdentity) : value :=
  VDict [("composite_key",
          VStr (sample_environment_api_key i ++ "_" ++ sample_identifier i));
         ("environment_api_key", VStr (sample_environment_api_key i));
         ("identifier", VStr (sample_identifier i));
         ("identity_features", VList [])].

Fixpoint repeat_char (c : ascii) (n : nat) : string :=
  match n with
  | O => EmptyString
  | S n' => String c (repeat_char c n')
  end.

(** 1023 times the letter a, then e with an acute accent (U+00E9): 1024
    characters, 1025 bytes in UTF-8. *)
Definition accented_identifier : string :=
  repeat_char "a" 1023 ++ String (ascii_of_nat 233) EmptyString.

(** 1025 times the letter a: 1025 characters, 1025 bytes. *)
Definition plain_long_identifier : string := repeat_char "a" 1025.

Definition alice : SampleIdentity :=
  {| sample_id := 1; sample_identifier := "alice";
     sample_environment_api_key := "env" |}.
Definition bob : SampleIdentity :=
  {| sample_id := 3; sample_identifier := "bob";
     sample_environment_api_key := "env" |}.
Definition accented : SampleIdentity :=
  {| sample_id := 2; sample_identifier := accented_identifier;
     sample_environment_api_key := "env" |}.
Definition plain_long : SampleIdentity :=
  {| sample_id := 4; sample_identifier := plain_long_identifier;
     sample_environment_api_key := "env" |}.

Definition empty_batch : batch := {| put_requests := []; warnings := [] |}.

(** ** Vocabulary for the feature-count aggregation *)

Definition hashable (v : value) : bool :=
  match v with
  | VList _ | VDict _ => false
  | _ => true
  end.

(** The member of a set that a hashable value stands for. *)
Definition hkey_of (v : value) : hkey :=
  match v with
  | VNone => HNone
  | VBool b => HNum (if b then 1 else 0)
  | VNum n => HNum n
  | VStr s => HStr s
  | VList _ | VDict _ => HNone
  end.

(** An override entry whose feature id may be missing but is not otherwise
    out of shape: an object whose [feature], when present, is an object
    whose [id], when present, is hashable. *)
Definition entry_in_shape (e : value) : bool :=
  match e with
  | VDict d =>
      match assoc d "feature" with
      | None => true
      | Some (VDict f) =>
          match assoc f "id" with
          | None => true
          | Some v => hashable v
          end
      | Some _ => false
      end
  | _ => false
  end.

(** The feature id of such an entry, 0 standing in for a missing one. *)
Definition entry_feature_id (e : value) : hkey :=
  match e with
  | VDict d =>
      match assoc d "feature" with
      | Some (VDict f) =>
          match assoc f "id" with
          | Some v => hkey_of v
          | None => HNum 0
          end
      | _ => HNum 0
      end
  | _ => HNum 0
  end.

(** The override entries of an identity record; none when the record has no
    [identity_features]. *)
Definition override_entries (identity : value) : list value :=
  match attr identity "identity_features" with
  | Some (VList entries) => entries
  | _ => []
  end.

(** An identity record whose [identity_features], when present, is a list of
    entries in shape. *)
Definition identity_in_shape (identity : value) : bool :=
  match identity with
  | VDict d =>
      match assoc d "identity_features" with
      | None => true
      | Some (VList entries) => forallb entry_in_shape entries
      | Some _ => false
      end
  | _ => false
  end.

(** Whether an identity overrides the feature with the given id. *)
Definition overrides_feature (feature_id : hkey) (identity : value) : bool :=
  bool_decide (feature_id ∈ map entry_feature_id (override_entries identity)).

(** An identity with one entry without [feature], one whose feature has no
    [id], and one for feature 3. *)
Definition identity_with_gaps : value :=
  VDict [("composite_key", VStr "env_carol");
         ("identity_features",
          VList [VDict [("enabled", VBool true)];
                 VDict [("feature", VDict [("name", VStr "banner")])];
                 feature_entry 3])].

(** An identity whose one entry has a feature id that is not a number. *)
Definition identity_with_text_id : value :=
  VDict [("composite_key", VStr "env_dave");
         ("identity_features",
          VList [VDict [("feature", VDict [("id", VStr "abc")])]])].

(** An identity whose one entry has [None] for a feature. *)
Definition identity_with_null_feature : value :=
  VDict [("composite_key", VStr "env_erin");
         ("identity_features", VList [VDict [("feature", VNone)]])].

(** ** Deleting the identities of an environment *)

(** [writer.delete_item(Key={"composite_key": item["composite_key"]})] for
    each item in turn; [deleted] is what the batch writer was handed so far,
    oldest first. *)
Fixpoint delete_items (items : list value) (deleted : list value)
    : list value * result unit :=
  match items with
  | [] => (deleted, Ok tt)
  | item :: items' =>
      match py_getitem item "composite_key" with
      | Ok k => delete_items items' (deleted ++ [VDict [("composite_key", k)]])
      | Raise e => (deleted, Raise e)
      end
  end.

Section DeleteAll.

Context {St : Type}.
Variable table_query : St -> QueryInput -> QueryOutput * St.
Variable IDENTITIES_PAGINATION_LIMIT : Z.

(** The scan that [delete_all_identities] works through. *)
Definition delete_all_scan (fuel : nat) (s : St) (environment_api_key : string)
    : scan_run :=
  iter_all_items_paginated table_query fuel s environment_api_key
    IDENTITIES_PAGINATION_LIMIT (Some "composite_key") Inf false.

(** The delete requests handed to the batch writer, and how the call ends
    ([None] while the scan is still running). *)
Definition delete_all_identities (fuel : nat) (s : St)
    (environment_api_key : string) : list value * option (result unit) :=
  let run := delete_all_scan fuel s environment_api_key in
  let written := delete_items (yields (trace run)) [] in
  (fst written,
   match snd written with
   | Raise e => Some (Raise e)
   | Ok _ =>
       match outcome run with
       | Exhausted => Some (Ok tt)
       | Raised e => Some (Raise e)
       | Suspended => None
       end
   end).

End DeleteAll.

(** ** Vocabulary for bulk writes and for the override count *)

(** The identifier of a document, when it is a string. *)
Definition str_identifier (document : value) : option string :=
  match attr document "identifier" with
  | Some (VStr s) => Some s
  | _ => None
  end.

(** Whether the identifier of a document has at most 1024 characters. *)
Definition identifier_fits (document : value) : bool :=
  match str_identifier document with
  | Some s => Z.of_nat (String.length s) <=? 1024
  | None => false
  end.

(** An override entry with a hashable [feature_id]. *)
Definition flat_entry_in_shape (e : value) : bool :=
  match e with
  | VDict d =>
      match assoc d "feature_id" with
      | Some v => hashable v
      | None => false
      end
  | _ => false
  end.

Definition flat_feature_id (e : value) : hkey :=
  match e with
  | VDict d =>
      match assoc d "feature_id" with
      | Some v => hkey_of v
      | None => HNone
      end
  | _ => HNone
  end.

(** An identity record with a list of such entries. *)
Definition flat_identity_in_shape (identity : value) : bool :=
  match attr identity "identity_features" with
  | Some (VList entries) => forallb flat_entry_in_shape entries
  | _ => false
  end.

(** The feature ids of an identity, each once. *)
Definition distinct_feature_ids (identity : value) : list hkey :=
  remove_dups (map flat_feature_id (override_entries identity)).

Fixpoint sum_list (l : list Z) : Z :=
  match l with
  | [] => 0
  | n :: l' => n + sum_list l'
  end.

(** How many of the identities override a feature. *)
Definition overriders (feature_id : hkey) (identities : list value) : nat :=
  length (List.filter (overrides_feature feature_id) identities).

(** ** More sample data *)

Definition carol_flat : value :=
  VDict [("composite_key", VStr "env_carol");
         ("identity_features",
          VList [feature_id_entry 7; feature_id_entry 7; feature_id_entry 8])].

(** A record that lost its [identity_features]. *)
Definition bare_identity : value :=
  VDict [("composite_key", VStr "env_frank")].

(** A mapper whose documents lack the identifier of identity 2. *)
Definition lossy_document (i : SampleIdentity) : value :=
  if sample_id i =? 2 then VDict [("composite_key", VStr "env_")]
  else sample_document i.

(** ** Vocabulary for deletion *)

Definition has_composite_key (item : value) : bool :=
  match attr item "composite_key" with
  | Some _ => true
  | None => false
  end.

(** The [Key] of the delete request for an item. *)
Definition delete_key (item : value) : value :=
  VDict [("composite_key", default VNone (attr item "composite_key"))].

(** Two pages of identities read with the projection [composite_key]. *)
Definition key_pages (j : nat) : QueryOutput :=
  {| Items := [VDict [("composite_key", VStr "env_alice")];
               VDict [("composite_key", VStr "env_bob")]];
     LastEvaluatedKey := if (j <? 1)%nat then Some sample_key else None;
     ConsumedCapacity := None |}.

(** ** Exact sums, for comparison with the sums the scan keeps *)

(** The exact value of a float; 0 for an infinity or a NaN. *)
Definition float_value (f : float) : Q :=
  match Prim2SF f with
  | S754_finite s m e => Q_of_finite s m e
  | _ => 0%Q
  end.

(** The capacity figure of a page, as an exact number. *)
Definition reported_capacity (r : QueryOutput) : Q :=
  match ConsumedCapacity r with
  | Some (Some units) => float_value units
  | _ => 0%Q
  end.

(** The capacity the first [n] pages report, added up without rounding. *)
Fixpoint exact_spent_after (pages : nat -> QueryOutput) (n : nat) : Q :=
  match n with
  | O => 0%Q
  | S m => (exact_spent_after pages m + reported_capacity (pages m))%Q
  end.

(** The float nearest to one tenth. *)
Definition tenth : float := 0x1.999999999999ap-4%float.

(** A store whose every page reports a tenth of a capacity unit and
    promises more. *)
Definition tenth_pages (j : nat) : QueryOutput :=
  {| Items := [sample_identity "alice" [override 1]];
     LastEvaluatedKey := Some sample_key;
     ConsumedCapacity := Some (Some tenth) |}.

(** [Decimal("0.30000000000000003")]. *)
Definition just_over_three_tenths : Q :=
  30000000000000003 # 100000000000000000.

(** ** The filter as one more argument of each request *)

Definition with_filter (c : condition) (q : QueryInput) : QueryInput :=
  {| IndexName := IndexName q;
     KeyConditionExpression := KeyConditionExpression q;
     Limit := Limit q;
     ExclusiveStartKey := ExclusiveStartKey q;
     FilterExpression := Some c;
     ProjectionExpression := ProjectionExpression q;
     ReturnConsumedCapacity := ReturnConsumedCapacity q |}.

(** The store seen through requests that all carry the filter. *)
Definition filtered_store {St : Type} (c : condition)
    (table_query : St -> QueryInput -> QueryOutput * St)
    (s : St) (q : QueryInput) : QueryOutput * St :=
  table_query s (with_filter c q).

Definition add_filter (c : condition) (ev : event) : event :=
  match ev with
  | EvQuery q r => EvQuery (with_filter c q) r
  | EvYield item => EvYield item
  end.

(** A run with the filter written into each of its requests. *)
Definition run_with_filter {St : Type} (c : condition) (r : @scan_run St)
    : @scan_run St :=
  {| trace := map (add_filter c) (trace r);
     outcome := outcome r;
     spent := spent r;
     store := store r |}.

Definition overrides_filter : condition :=
  AttrNe "identity_features" (VList []).

(** * Properties *)

Local Open Scope list_scope.
#[local] Set Warnings "-clear-no-such-hyp".

(** ** The scan against a played-back sequence of pages *)

Lemma budget_not_reached sp B :
  budget_reached sp B = false -> compare_budget sp B = Ok false.
Proof.
  unfold budget_reached. by destruct (compare_budget sp B) as [[|]|e].
Qed.

Lemma compare_budget_raises sp B e :
  compare_budget sp B = Raise e -> e = InvalidOperation.
Proof.
  unfold compare_budget. destruct (Prim2SF sp) as [| [|] | |]; congruence.
Qed.

Lemma with_start_key_twice kw k1 k2 :
  with_start_key (with_start_key kw k1) k2 = with_start_key kw k2.
Proof. reflexivity. Qed.

Lemma kwargs_at_next kw0 pages i k :
  LastEvaluatedKey (pages i) = Some k ->
  with_start_key (kwargs_at kw0 pages i) k = kwargs_at kw0 pages (S i).
Proof.
  intros Hk. unfold kwargs_at at 2. rewrite Hk.
  destruct i as [|i]; simpl; [reflexivity|].
  destruct (LastEvaluatedKey (pages i)); reflexivity.
Qed.

Lemma has_continuation_key r :
  has_continuation r = true ->
  exists k, LastEvaluatedKey r = Some k /\ truthy k = true.
Proof.
  unfold has_continuation. destruct (LastEvaluatedKey r) as [k|]; [eauto | discriminate].
Qed.

Lemma emit_emit {St : Type} evs1 evs2 (r : @scan_run St) :
  emit evs1 (emit evs2 r) = emit (evs1 ++ evs2) r.
Proof. unfold emit; simpl. by rewrite app_assoc. Qed.

Lemma emit_nil {St : Type} (r : @scan_run St) : emit [] r = r.
Proof. by destruct r. Qed.

Lemma scripted_trace_cons kw0 pages i n :
  scripted_trace kw0 pages i (S n) =
  page_events (get_all_items_query (kwargs_at kw0 pages i)) (pages i)
    ++ scripted_trace kw0 pages (S i) n.
Proof. reflexivity. Qed.

(** While the budget is not reached and pages carry a continuation key, the
    loop requests page after page. *)
Lemma scan_loop_scripted_prefix kw0 pages B m :
  forall i fuel,
    (forall j, (i <= j < i + m)%nat ->
       budget_reached (spent_after pages j) B = false /\
       has_continuation (pages j) = true) ->
    scan_loop (scripted pages) (m + fuel) B i (kwargs_at kw0 pages i)
      (spent_after pages i)
    = emit (scripted_trace kw0 pages i m)
        (scan_loop (scripted pages) fuel B (i + m)%nat
           (kwargs_at kw0 pages (i + m)) (spent_after pages (i + m))).
Proof.
  induction m as [|m IH]; intros i fuel Hpages.
  - rewrite Nat.add_0_r. simpl. by rewrite emit_nil.
  - destruct (Hpages i ltac:(lia)) as [Hb Hc].
    apply has_continuation_key in Hc as (k & Hk & Ht).
    change (S m + fuel)%nat with (S (m + fuel)).
    cbn [scan_loop]. rewrite (budget_not_reached _ _ Hb).
    cbn [get_all_items query_items scripted fst snd].
    rewrite Hk, Ht, (kwargs_at_next _ _ _ _ Hk).
    change (add_capacity (spent_after pages i) (pages i))
      with (spent_after pages (S i)).
    rewrite IH by (intros j Hj; apply Hpages; lia).
    rewrite emit_emit, scripted_trace_cons.
    by replace (S i + m)%nat with (i + S m)%nat by lia.
Qed.

Lemma queries_app tr1 tr2 : queries (tr1 ++ tr2) = queries tr1 ++ queries tr2.
Proof. induction tr1 as [|[]]; simpl; congruence. Qed.

Lemma responses_app tr1 tr2 :
  responses (tr1 ++ tr2) = responses tr1 ++ responses tr2.
Proof. induction tr1 as [|[]]; simpl; congruence. Qed.

Lemma yields_app tr1 tr2 : yields (tr1 ++ tr2) = yields tr1 ++ yields tr2.
Proof. induction tr1 as [|[]]; simpl; congruence. Qed.

Lemma queries_yield items : queries (map EvYield items) = [].
Proof. by induction items. Qed.

Lemma responses_yield items : responses (map EvYield items) = [].
Proof. by induction items. Qed.

Lemma yields_yield items : yields (map EvYield items) = items.
Proof. induction items; simpl; congruence. Qed.

Lemma scripted_trace_responses kw0 pages i n :
  responses (scripted_trace kw0 pages i n) = map pages (seq i n).
Proof.
  revert i; induction n as [|n IH]; intros i; [reflexivity|].
  rewrite scripted_trace_cons, responses_app, IH. simpl.
  by rewrite responses_yield.
Qed.

Lemma scripted_trace_queries kw0 pages i n :
  queries (scripted_trace kw0 pages i n)
  = map (fun j => get_all_items_query (kwargs_at kw0 pages j)) (seq i n).
Proof.
  revert i; induction n as [|n IH]; intros i; [reflexivity|].
  rewrite scripted_trace_cons, queries_app, IH. simpl.
  by rewrite queries_yield.
Qed.

Lemma scripted_trace_yields kw0 pages i n :
  yields (scripted_trace kw0 pages i n)
  = concat (map (fun j => Items (pages j)) (seq i n)).
Proof.
  revert i; induction n as [|n IH]; intros i; [reflexivity|].
  rewrite scripted_trace_cons, yields_app, IH. simpl.
  by rewrite yields_yield.
Qed.

(** C1, as amended.  Budget enforcement.  Let the store play back the pages
    [pages 0, pages 1, ...], and let [k] be the least number of pages whose
    reported capacity, added up as the scan adds it (in floating point, in
    page order, from zero), compares at least the budget [B], every one of
    these [k] pages carrying a continuation key (so that the scan gets as
    far as the next request).  Then the scan requests exactly these [k]
    pages, raises [CapacityBudgetExceeded] with the budget [B] and the
    capacity spent on the [k] pages where it would request the next page,
    and the store is never asked for that page or any later one. *)
Theorem budget_exceeded_before_page_over_budget
    (environment_api_key : string) (limit : Z)
    (projection_expression : option string) (B : budget)
    (overrides_only : bool) (pages : nat -> QueryOutput) (k fuel : nat) :
  (forall j, (j < k)%nat -> budget_reached (spent_after pages j) B = false) ->
  compare_budget (spent_after pages k) B = Ok true ->
  (forall j, (j < k)%nat -> has_continuation (pages j) = true) ->
  (k < fuel)%nat ->
  let run := iter_all_items_paginated (scripted pages) fuel 0%nat
               environment_api_key limit projection_expression B
               overrides_only in
  outcome run = Raised (CapacityBudgetExceeded B (spent_after pages k)) /\
  responses (trace run) = map pages (seq 0 k) /\
  length (queries (trace run)) = k /\
  store run = k.
Proof.
  intros Hbelow Hreached Hcont Hfuel run. subst run.
  unfold iter_all_items_paginated.
  set (kw0 := initial_kwargs _ _ _ _ _).
  replace fuel with (k + S (fuel - S k))%nat by lia.
  change kw0 with (kwargs_at kw0 pages 0).
  change 0%float with (spent_after pages 0).
  rewrite scan_loop_scripted_prefix
    by (intros j Hj; split; [apply Hbelow | apply Hcont]; lia).
  cbn [Nat.add scan_loop]. rewrite Hreached. cbn [emit trace outcome store].
  rewrite app_nil_r, scripted_trace_responses, scripted_trace_queries.
  rewrite length_map, length_seq. auto.
Qed.

(** C2.  Let the store play back the pages [pages 0, pages 1, ...], let
    page [n] be the first one without a continuation key (a key that is
    absent, or one that is empty and so ends the [while] loop as well), and
    let the budget not be reached on the way (as with the default, unbounded
    budget).  Then the scan requests exactly the pages [0..n], yields the
    items of these pages concatenated in page order, each item once, and
    then ends. *)
Theorem scan_yields_concatenation_of_pages
    (environment_api_key : string) (limit : Z)
    (projection_expression : option string) (B : budget)
    (overrides_only : bool) (pages : nat -> QueryOutput) (n fuel : nat) :
  (forall j, (j < n)%nat -> has_continuation (pages j) = true) ->
  has_continuation (pages n) = false ->
  (forall j, (j <= n)%nat -> budget_reached (spent_after pages j) B = false) ->
  (n < fuel)%nat ->
  let run := iter_all_items_paginated (scripted pages) fuel 0%nat
               environment_api_key limit projection_expression B
               overrides_only in
  outcome run = Exhausted /\
  yields (trace run) = concat (map (fun j => Items (pages j)) (seq 0 (S n))) /\
  responses (trace run) = map pages (seq 0 (S n)) /\
  store run = S n.
Proof.
  intros Hcont Hlast Hbudget Hfuel run. subst run.
  unfold iter_all_items_paginated.
  set (kw0 := initial_kwargs _ _ _ _ _).
  replace fuel with (n + S (fuel - S n))%nat by lia.
  change kw0 with (kwargs_at kw0 pages 0).
  change 0%float with (spent_after pages 0).
  rewrite scan_loop_scripted_prefix
    by (intros j Hj; split; [apply Hbudget | apply Hcont]; lia).
  cbn [Nat.add scan_loop].
  rewrite (budget_not_reached _ _ (Hbudget n ltac:(lia))).
  cbn [get_all_items query_items scripted fst snd].
  assert (Hend : forall s' sp,
    match LastEvaluatedKey (pages n) with
    | Some last_evaluated_key =>
        if truthy last_evaluated_key then
          scan_loop (scripted pages) (fuel - S n) B s'
            (with_start_key (kwargs_at kw0 pages n) last_evaluated_key) sp
        else {| trace := []; outcome := Exhausted; spent := sp; store := s' |}
    | None => {| trace := []; outcome := Exhausted; spent := sp; store := s' |}
    end = {| trace := []; outcome := Exhausted; spent := sp; store := s' |}).
  { intros s' sp. unfold has_continuation in Hlast.
    destruct (LastEvaluatedKey (pages n)) as [key|]; [by rewrite Hlast | done]. }
  rewrite Hend. cbn [emit trace outcome store].
  rewrite app_nil_r.
  rewrite yields_app, responses_app, scripted_trace_yields,
    scripted_trace_responses.
  rewrite seq_S, !map_app, concat_app. simpl.
  rewrite yields_yield, responses_yield, app_nil_r.
  auto.
Qed.

Lemma budget_exceeded_witness :
  outcome (iter_all_items_paginated (scripted three_pages) 3 0%nat
             "env" 10 None (Finite 2) false)
  = Raised (CapacityBudgetExceeded (Finite 2) (spent_after three_pages 2)).
Proof.
  refine (proj1 (budget_exceeded_before_page_over_budget
                   "env" 10 None (Finite 2) false three_pages 2 3 _ _ _ _)).
  - intros j Hj. destruct j as [|[|j]]; [reflexivity | reflexivity | lia].
  - reflexivity.
  - intros j Hj. destruct j as [|[|j]]; [reflexivity | reflexivity | lia].
  - lia.
Defined.

(** C1 as stated fails when the sum is taken exactly: with pages that report
    a tenth of a unit each (the float nearest 0.1) and the budget
    [Decimal("0.30000000000000003")], the exact sum of three reports is
    below the budget and only the exact sum of four reaches it, yet the scan
    raises after three pages, because the sum it keeps in floating point is
    0.30000000000000004. *)
Lemma float_sum_reaches_budget_before_exact_sum :
  let B := Finite just_over_three_tenths in
  let run := iter_all_items_paginated (scripted tenth_pages) 10 0%nat
               "env" 10 None B false in
  (exact_spent_after tenth_pages 3 < just_over_three_tenths)%Q /\
  (just_over_three_tenths <= exact_spent_after tenth_pages 4)%Q /\
  length (queries (trace run)) = 3%nat /\
  store run = 3%nat /\
  outcome run
  = Raised (CapacityBudgetExceeded B 0x1.3333333333334p-2%float).
Proof.
  split; [vm_compute; reflexivity|].
  split; [vm_compute; discriminate|].
  repeat split.
Qed.

Lemma scan_concatenation_witness :
  yields (trace (iter_all_items_paginated (scripted three_pages) 3 0%nat
                   "env" 10 None Inf false))
  = Items (three_pages 0) ++ Items (three_pages 1) ++ Items (three_pages 2).
Proof.
  refine (proj1 (proj2 (scan_yields_concatenation_of_pages
                   "env" 10 None Inf false three_pages 2 3 _ _ _ _))).
  - intros j Hj. destruct j as [|[|j]]; [reflexivity | reflexivity | lia].
  - reflexivity.
  - intros j Hj. destruct j as [|[|[|j]]]; [reflexivity..|lia].
  - lia.
Defined.

(** ** The scan against any store *)

Section AnyStore.

Context {St : Type}.
Variable table_query : St -> QueryInput -> QueryOutput * St.

Lemma trace_emit evs (r : @scan_run St) : trace (emit evs r) = evs ++ trace r.
Proof. reflexivity. Qed.

Lemma outcome_emit evs (r : @scan_run St) : outcome (emit evs r) = outcome r.
Proof. reflexivity. Qed.

Lemma spent_emit evs (r : @scan_run St) : spent (emit evs r) = spent r.
Proof. reflexivity. Qed.

Lemma request_for_query kw : request_for kw (get_all_items_query kw).
Proof. by repeat split. Qed.

(** One pass through the loop that requests a page, as an equation. *)
Lemma scan_loop_step fuel B s kw sp :
  budget_reached sp B = false ->
  scan_loop table_query (S fuel) B s kw sp
  = let r := fst (table_query s (get_all_items_query kw)) in
    let s' := snd (table_query s (get_all_items_query kw)) in
    emit (page_events (get_all_items_query kw) r)
      (if has_continuation r then
         scan_loop table_query fuel B s'
           (with_start_key kw (default VNone (LastEvaluatedKey r)))
           (add_capacity sp r)
       else {| trace := []; outcome := Exhausted;
               spent := add_capacity sp r; store := s' |}).
Proof.
  intros Hb. cbn [scan_loop]. rewrite (budget_not_reached _ _ Hb).
  unfold get_all_items, query_items, has_continuation. cbn zeta.
  destruct (LastEvaluatedKey _) as [k|]; [|reflexivity].
  by destruct (truthy k).
Qed.

(** A pass that does not get past the budget check requests nothing. *)
Lemma scan_loop_raise fuel B s kw sp :
  budget_reached sp B = true ->
  scan_loop table_query (S fuel) B s kw sp
  = {| trace := [];
       outcome := match compare_budget sp B with
                  | Raise e => Raised e
                  | Ok _ => Raised (CapacityBudgetExceeded B sp)
                  end;
       spent := sp; store := s |}.
Proof.
  unfold budget_reached. intros Hb. cbn [scan_loop].
  by destruct (compare_budget sp B) as [[|]|e].
Qed.

(** Every request of a scan carries the same index, key condition, limit,
    filter and capacity-reporting choice. *)
Lemma scan_loop_requests fuel B :
  forall s kw sp,
    Forall (request_for kw) (queries (trace (scan_loop table_query fuel B s kw sp))).
Proof.
  induction fuel as [|fuel IH]; intros s kw sp; [constructor|].
  destruct (budget_reached sp B) eqn:Hb.
  - rewrite scan_loop_raise by done. constructor.
  - rewrite scan_loop_step by done. cbn zeta.
    rewrite trace_emit, queries_app. cbn [page_events queries].
    rewrite queries_yield. cbn [app].
    constructor; [apply request_for_query|].
    destruct (has_continuation _); [|constructor].
    apply (IH _ (with_start_key kw _)).
Qed.

Lemma chained_yields prev items tr :
  chained prev (map EvYield items ++ tr) <-> chained prev tr.
Proof. induction items; simpl; tauto. Qed.

(** The first request starts from the beginning, and every later one from
    the continuation key of the page before it. *)
Lemma scan_loop_chained fuel B :
  forall s kw sp,
    start_key kw = if_truthy truthy (start_key kw) ->
    chained (start_key kw) (trace (scan_loop table_query fuel B s kw sp)).
Proof.
  induction fuel as [|fuel IH]; intros s kw sp Hkey; [exact I|].
  destruct (budget_reached sp B) eqn:Hb.
  - rewrite scan_loop_raise by done. exact I.
  - rewrite scan_loop_step by done. cbn zeta.
    rewrite trace_emit. cbn [page_events app chained].
    split; [by rewrite Hkey|].
    apply chained_yields.
    unfold has_continuation.
    destruct (LastEvaluatedKey _) as [k|] eqn:Hk; [|exact I].
    destruct (truthy k) eqn:Ht; [|exact I].
    apply (IH _ (with_start_key kw k)). simpl. by rewrite Ht.
Qed.

(** The items yielded are the items of the pages received. *)
Lemma scan_loop_yields fuel B :
  forall s kw sp,
    yields (trace (scan_loop table_query fuel B s kw sp))
    = concat (map Items (responses (trace (scan_loop table_query fuel B s kw sp)))).
Proof.
  induction fuel as [|fuel IH]; intros s kw sp; [reflexivity|].
  destruct (budget_reached sp B) eqn:Hb.
  - rewrite scan_loop_raise by done. reflexivity.
  - rewrite scan_loop_step by done. cbn zeta.
    rewrite trace_emit, yields_app, responses_app.
    cbn [page_events yields responses].
    rewrite yields_yield, responses_yield. cbn [app map concat].
    f_equal.
    destruct (has_continuation _); [apply IH | reflexivity].
Qed.

(** A store that honours a filter only returns items that pass it. *)
Lemma scan_loop_filtered fuel B c :
  (forall s q, FilterExpression q = Some c ->
               Forall (cond_holds c) (Items (fst (table_query s q)))) ->
  forall s kw sp,
    filter_expression kw = Some c ->
    Forall (cond_holds c) (yields (trace (scan_loop table_query fuel B s kw sp))).
Proof.
  intros Hstore.
  induction fuel as [|fuel IH]; intros s kw sp Hf; [constructor|].
  destruct (budget_reached sp B) eqn:Hb.
  - rewrite scan_loop_raise by done. constructor.
  - rewrite scan_loop_step by done. cbn zeta.
    rewrite trace_emit, yields_app. cbn [page_events yields].
    rewrite yields_yield. apply Forall_app. split.
    + by apply Hstore.
    + destruct (has_continuation _); [|constructor].
      by apply (IH _ (with_start_key kw _)).
Qed.

(** With an unbounded budget, against a store that reports capacity only
    on request, nothing is ever added to [capacity_spent] and the scan
    never raises. *)
Lemma scan_loop_unbounded fuel :
  (forall s q, ReturnConsumedCapacity q = None ->
               ConsumedCapacity (fst (table_query s q)) = None) ->
  forall s kw sp,
    return_consumed_capacity kw = false ->
    budget_reached sp Inf = false ->
    spent (scan_loop table_query fuel Inf s kw sp) = sp /\
    (outcome (scan_loop table_query fuel Inf s kw sp) = Exhausted \/
     outcome (scan_loop table_query fuel Inf s kw sp) = Suspended).
Proof.
  intros Hstore.
  induction fuel as [|fuel IH]; intros s kw sp Hrc Hsp; [simpl; auto|].
  rewrite scan_loop_step by done. cbn zeta.
  rewrite spent_emit, outcome_emit.
  assert (Hadd : add_capacity sp (fst (table_query s (get_all_items_query kw))) = sp).
  { unfold add_capacity. rewrite Hstore; [done|]. simpl. by rewrite Hrc. }
  rewrite Hadd.
  destruct (has_continuation _); [|simpl; auto].
  by apply (IH _ (with_start_key kw _)).
Qed.

End AnyStore.

Lemma compare_budget_zero B :
  compare_budget 0 B
  = Ok (match B with Finite b => Qle_bool b 0 | Inf => false end).
Proof. reflexivity. Qed.

Lemma budget_reached_zero B :
  budget_reached 0 B = true <-> exists b, B = Finite b /\ (b <= 0)%Q.
Proof.
  unfold budget_reached. rewrite compare_budget_zero.
  destruct B as [b|].
  - destruct (Qle_bool b 0) eqn:E.
    + apply Qle_bool_iff in E. split; [eauto | done].
    + split; [discriminate|]. intros (b' & [= <-] & Hb).
      apply Qle_bool_iff in Hb. congruence.
  - split; [discriminate|]. by intros (b' & [=] & _).
Qed.

(** With a budget of zero or less the scan raises at once: the check
    precedes every request, the first one included. *)
Lemma scan_raises_at_once_with_nonpositive_budget {St : Type}
    (table_query : St -> QueryInput -> QueryOutput * St) (s : St)
    (environment_api_key : string) (limit : Z)
    (projection_expression : option string) (b : Q) (overrides_only : bool)
    (fuel : nat) :
  (b <= 0)%Q ->
  iter_all_items_paginated table_query (S fuel) s environment_api_key limit
    projection_expression (Finite b) overrides_only
  = {| trace := [];
       outcome := Raised (CapacityBudgetExceeded (Finite b) 0);
       spent := 0%float; store := s |}.
Proof.
  intros Hb. unfold iter_all_items_paginated.
  rewrite scan_loop_raise by (apply budget_reached_zero; eauto).
  by rewrite compare_budget_zero.
Qed.

(** C5, as amended.  For every capacity budget above zero, the unbounded one
    included, the scan requests the first page: the first thing it does is
    the query for the first page, and no [CapacityBudgetExceeded] precedes
    it. *)
Theorem first_page_requested_with_positive_budget {St : Type}
    (table_query : St -> QueryInput -> QueryOutput * St) (s : St)
    (environment_api_key : string) (limit : Z)
    (projection_expression : option string) (B : budget)
    (overrides_only : bool) (fuel : nat) :
  (B = Inf \/ exists b, B = Finite b /\ (0 < b)%Q) ->
  let run := iter_all_items_paginated table_query (S fuel) s
               environment_api_key limit projection_expression B
               overrides_only in
  let q0 := get_all_items_query
              (initial_kwargs environment_api_key limit projection_expression
                 B overrides_only) in
  exists rest, trace run = EvQuery q0 (fst (table_query s q0)) :: rest.
Proof.
  intros HB run q0. subst run q0. unfold iter_all_items_paginated.
  assert (Hb : budget_reached 0 B = false).
  { destruct (budget_reached 0 B) eqn:E; [|done].
    apply budget_reached_zero in E as (b & -> & Hle).
    destruct HB as [[=]|(b' & [= <-] & Hlt)].
    exfalso. by apply (Qlt_not_le 0 b). }
  rewrite scan_loop_step by done. cbn zeta.
  rewrite trace_emit. cbn [page_events app]. eauto.
Qed.

Lemma first_page_requested_witness :
  exists rest,
    trace (iter_all_items_paginated (scripted three_pages) 1 0%nat
             "env" 10 None (Finite 1) false)
    = EvQuery (get_all_items_query (initial_kwargs "env" 10 None (Finite 1) false))
        (three_pages 0) :: rest.
Proof.
  refine (first_page_requested_with_positive_budget
            (scripted three_pages) 0%nat "env" 10 None (Finite 1) false 0 _).
  right. exists 1%Q. split; reflexivity.
Defined.

(** C5 as stated fails: with a budget of zero the scan raises
    [CapacityBudgetExceeded] before any page is requested. *)
Lemma zero_budget_raises_before_first_page :
  let run := iter_all_items_paginated (scripted three_pages) 3 0%nat
               "env" 10 None (Finite 0) false in
  queries (trace run) = [] /\
  store run = 0%nat /\
  outcome run = Raised (CapacityBudgetExceeded (Finite 0) 0).
Proof. repeat split. Qed.

(** C6.  Against a store that reports consumed capacity only on request, a
    scan with an unbounded budget never asks for consumed capacity, never
    adds to [capacity_spent] and never raises; and whatever the budget,
    every request asks for consumed capacity exactly when the budget is
    finite. *)
Theorem unbounded_budget_requests_no_capacity {St : Type}
    (table_query : St -> QueryInput -> QueryOutput * St) :
  (forall s q, ReturnConsumedCapacity q = None ->
               ConsumedCapacity (fst (table_query s q)) = None) ->
  forall (fuel : nat) (s : St) (environment_api_key : string) (limit : Z)
         (projection_expression : option string) (overrides_only : bool),
    (let run := iter_all_items_paginated table_query fuel s
                  environment_api_key limit projection_expression Inf
                  overrides_only in
     Forall (fun q => ReturnConsumedCapacity q = None) (queries (trace run)) /\
     spent run = 0%float /\
     (forall e, outcome run <> Raised e)) /\
    (forall B : budget,
       Forall (fun q => ReturnConsumedCapacity q
                        = if budget_is_finite B then Some "TOTAL" else None)
         (queries (trace (iter_all_items_paginated table_query fuel s
                            environment_api_key limit projection_expression B
                            overrides_only)))).
Proof.
  intros Hstore fuel s env lim proj ov.
  assert (Hreq : forall B : budget,
    Forall (fun q => ReturnConsumedCapacity q
                     = if budget_is_finite B then Some "TOTAL" else None)
      (queries (trace (iter_all_items_paginated table_query fuel s env lim
                         proj B ov)))).
  { intros B. unfold iter_all_items_paginated.
    eapply Forall_impl; [apply scan_loop_requests|].
    intros q (_ & _ & _ & _ & Hq). exact Hq. }
  split; [|exact Hreq]. cbn zeta. split; [apply (Hreq Inf)|].
  unfold iter_all_items_paginated.
  destruct (scan_loop_unbounded table_query fuel Hstore s
              (initial_kwargs env lim proj Inf ov) 0%float eq_refl eq_refl)
    as [Hsp Hout].
  split; [exact Hsp|].
  intros e He. destruct Hout as [Hout|Hout]; congruence.
Qed.

Lemma unbounded_budget_witness :
  spent (iter_all_items_paginated (metered three_pages) 5 0%nat
           "env" 10 None Inf false) = 0%float.
Proof.
  refine (proj1 (proj2 (proj1 (unbounded_budget_requests_no_capacity
            (metered three_pages) _ 5%nat 0%nat "env" 10 None false)))).
  intros s q Hq. simpl. rewrite Hq. reflexivity.
Defined.

Section Continuation.

Context {St : Type}.
Variable table_query : St -> QueryInput -> QueryOutput * St.

(** The loop goes on exactly while pages carry a continuation key: every
    page received but the last carries one; a run that ends by exhaustion
    has received a last page, which carries none; and a run that is still
    going has made one request per pass. *)
Lemma scan_loop_continues fuel B :
  forall s kw sp,
    let run := scan_loop table_query fuel B s kw sp in
    (forall i r, responses (trace run) !! i = Some r ->
                 (S i < length (responses (trace run)))%nat ->
                 has_continuation r = true) /\
    (outcome run = Exhausted ->
     exists r, last (responses (trace run)) = Some r /\
               has_continuation r = false) /\
    (outcome run = Suspended -> length (responses (trace run)) = fuel).
Proof.
  induction fuel as [|fuel IH]; intros s kw sp run; subst run.
  - cbn. repeat split; [intros i r; discriminate | discriminate].
  - destruct (budget_reached sp B) eqn:Hb.
    + rewrite scan_loop_raise by done. cbn [trace outcome responses].
      repeat split.
      * intros i r; discriminate.
      * by destruct (compare_budget sp B) as [[|]|e].
      * by destruct (compare_budget sp B) as [[|]|e].
    + rewrite scan_loop_step by done. cbn zeta.
      rewrite trace_emit, outcome_emit, responses_app.
      cbn [page_events responses]. rewrite responses_yield. cbn [app].
      destruct (has_continuation _) eqn:Hc.
      * match goal with
        | |- context [scan_loop table_query fuel B ?s' ?kw' ?sp'] =>
            destruct (IH s' kw' sp') as (Hmid & Hlast & Hsusp)
        end.
        cbn zeta in Hmid, Hlast, Hsusp.
        repeat split.
        -- intros [|i] r Hr Hi.
           ++ by injection Hr as <-.
           ++ apply (Hmid i r Hr). cbn [length] in Hi. lia.
        -- intros Hend. destruct (Hlast Hend) as (r & Hr & Hnone).
           exists r. split; [|done].
           destruct (responses (trace _)); [discriminate | exact Hr].
        -- intros Hsus. cbn [length]. by rewrite (Hsusp Hsus).
      * cbn [trace outcome responses length]. repeat split.
        -- intros [|i] r Hr Hi; [lia | discriminate].
        -- intros _. eexists. split; [reflexivity | exact Hc].
        -- discriminate.
Qed.

Lemma with_filter_query c kw :
  filter_expression kw = None ->
  get_all_items_query
    {| environment_api_key := environment_api_key kw;
       limit := limit kw;
       projection_expression := projection_expression kw;
       return_consumed_capacity := return_consumed_capacity kw;
       filter_expression := Some c;
       start_key := start_key kw |}
  = with_filter c (get_all_items_query kw).
Proof. reflexivity. Qed.

Lemma run_with_filter_emit c q r (run : @scan_run St) :
  run_with_filter c (emit (page_events q r) run)
  = emit (page_events (with_filter c q) r) (run_with_filter c run).
Proof.
  unfold run_with_filter, emit, page_events. cbn.
  rewrite map_app. cbn. f_equal. f_equal. f_equal.
  by rewrite map_map.
Qed.

(** A scan with a filter is the scan without it, run against the store as
    seen through requests that carry the filter: the passes through the
    loop, the start keys, the budget check and the items are the same. *)
Lemma scan_loop_filter_view c fuel B :
  forall s kw sp,
    filter_expression kw = None ->
    scan_loop table_query fuel B s
      {| environment_api_key := environment_api_key kw;
         limit := limit kw;
         projection_expression := projection_expression kw;
         return_consumed_capacity := return_consumed_capacity kw;
         filter_expression := Some c;
         start_key := start_key kw |} sp
    = run_with_filter c
        (scan_loop (filtered_store c table_query) fuel B s kw sp).
Proof.
  induction fuel as [|fuel IH]; intros s kw sp Hnone; [reflexivity|].
  destruct (budget_reached sp B) eqn:Hb.
  - by rewrite !scan_loop_raise.
  - rewrite !scan_loop_step by done. cbn zeta.
    rewrite run_with_filter_emit, with_filter_query by done.
    unfold filtered_store at 1 2 3 4 5.
    f_equal. destruct (has_continuation _); [|reflexivity].
    apply (IH _ (with_start_key kw _)). exact Hnone.
Qed.

End Continuation.

(** C7.  With [overrides_only] set, every page request carries the filter
    [Attr("identity_features").ne([])] next to the partition key condition
    and the page limit, so that against a store that applies the filter no
    item with an empty override list is yielded.  The filter is one more
    argument of each request and leaves the pagination as it is: the run is
    the run of the scan without [overrides_only] against the store seen
    through requests that carry the filter, request for request; the first
    request starts from the beginning and each later one from the
    continuation key of the page before it; every page but the last one
    received carries a continuation key, a scan that ends has received a
    page without one, and a scan that has not ended has made one request
    per pass; and the items yielded are the items of all pages received. *)
Theorem overrides_only_filters_every_page {St : Type}
    (table_query : St -> QueryInput -> QueryOutput * St) :
  (forall s q,
     FilterExpression q = Some (AttrNe "identity_features" (VList [])) ->
     Forall (cond_holds (AttrNe "identity_features" (VList [])))
       (Items (fst (table_query s q)))) ->
  forall (fuel : nat) (s : St) (environment_api_key : string) (limit : Z)
         (projection_expression : option string) (B : budget),
    let run := iter_all_items_paginated table_query fuel s
                 environment_api_key limit projection_expression B true in
    Forall (fun q =>
              FilterExpression q = Some (AttrNe "identity_features" (VList [])) /\
              KeyConditionExpression q
                = KeyEq "environment_api_key" (VStr environment_api_key) /\
              Limit q = limit)
      (queries (trace run)) /\
    chained None (trace run) /\
    yields (trace run) = concat (map Items (responses (trace run))) /\
    Forall (fun item => attr item "identity_features" <> Some (VList []))
      (yields (trace run)) /\
    run = run_with_filter overrides_filter
            (iter_all_items_paginated
               (filtered_store overrides_filter table_query) fuel s
               environment_api_key limit projection_expression B false) /\
    (forall i r, responses (trace run) !! i = Some r ->
                 (S i < length (responses (trace run)))%nat ->
                 has_continuation r = true) /\
    (outcome run = Exhausted ->
     exists r, last (responses (trace run)) = Some r /\
               has_continuation r = false) /\
    (outcome run = Suspended -> length (responses (trace run)) = fuel).
Proof.
  intros Hstore fuel s env lim proj B run. subst run.
  unfold iter_all_items_paginated.
  set (kw0 := initial_kwargs env lim proj B true).
  split; [|split; [|split; [|split; [|split]]]].
  - eapply Forall_impl; [apply scan_loop_requests|].
    intros q (_ & Hk & Hl & Hf & _). auto.
  - apply (scan_loop_chained table_query fuel B s kw0). reflexivity.
  - apply scan_loop_yields.
  - apply (scan_loop_filtered table_query fuel B _ Hstore s kw0). reflexivity.
  - apply (scan_loop_filter_view table_query overrides_filter fuel B s
             (initial_kwargs env lim proj B false)).
    reflexivity.
  - apply (scan_loop_continues table_query fuel B s kw0).
Qed.

Lemma overrides_only_witness :
  let run := iter_all_items_paginated (filtering mixed_pages) 5 0%nat
               "env" 10 None Inf true in
  Forall (fun item => attr item "identity_features" <> Some (VList []))
    (yields (trace run)) /\
  run = run_with_filter overrides_filter
          (iter_all_items_paginated
             (filtered_store overrides_filter (filtering mixed_pages)) 5 0%nat
             "env" 10 None Inf false) /\
  (forall i r, responses (trace run) !! i = Some r ->
               (S i < length (responses (trace run)))%nat ->
               has_continuation r = true) /\
  (outcome run = Exhausted ->
   exists r, last (responses (trace run)) = Some r /\
             has_continuation r = false) /\
  (outcome run = Suspended -> length (responses (trace run)) = 5%nat).
Proof.
  refine (proj2 (proj2 (proj2 (overrides_only_filters_every_page
            (filtering mixed_pages) _ 5%nat 0%nat "env" 10 None Inf)))).
  intros s q Hq. simpl. rewrite Hq. simpl.
  repeat constructor. discriminate.
Defined.

(** With [overrides_only], the scan of the two mixed pages requests both
    pages, the second from the continuation key of the first, and yields
    the one identity with overrides of each. *)
Example overrides_only_scans_both_pages :
  let run := iter_all_items_paginated (filtering mixed_pages) 5 0%nat
               "env" 10 None Inf true in
  map ExclusiveStartKey (queries (trace run)) = [None; Some sample_key] /\
  yields (trace run) = [sample_identity "alice" [override 1];
                        sample_identity "alice" [override 1]] /\
  outcome run = Exhausted.
Proof. repeat split. Qed.

(** ** Lookups *)

(** C9.  When the uuid index holds no item for a uuid, the lookup with
    [get_item_from_uuid_or_404] raises [NotFound], whereas
    [get_segment_ids], called with that uuid as [identity_pk] (a non-empty
    string) and no [identity_model], returns the empty list and does not
    raise. *)
Theorem uuid_miss_not_found_but_no_segments {St : Type}
    (table_query : St -> QueryInput -> QueryOutput * St)
    (IdentityModel EnvironmentModel : Type)
    (identity_model_validate : value -> result IdentityModel)
    (identity_environment_api_key : IdentityModel -> string)
    (environment_get_item : St -> string -> result value * St)
    (environment_model_validate : value -> result EnvironmentModel)
    (context_segment_ids : EnvironmentModel -> IdentityModel -> result (list Z))
    (s : St) (uuid : string) :
  Items (fst (table_query s (uuid_query uuid))) = [] ->
  fst (get_item_from_uuid_or_404 table_query s uuid) = Raise NotFound /\
  (uuid <> "" ->
   fst (get_segment_ids table_query IdentityModel EnvironmentModel
          identity_model_validate identity_environment_api_key
          environment_get_item environment_model_validate context_segment_ids
          s (Some uuid) None)
   = Ok []).
Proof.
  intros Hmiss. split.
  - unfold get_item_from_uuid_or_404, get_item_from_uuid, query_items.
    cbn [fst snd]. by rewrite Hmiss.
  - intros Hne. unfold get_segment_ids. cbn [str_truthy].
    apply String.eqb_neq in Hne. rewrite Hne. cbn [negb orb].
    unfold resolve_segment_ids, get_item_from_uuid, query_items.
    cbn [from_option fst snd]. unfold id. by rewrite Hmiss.
Qed.

Lemma uuid_miss_witness :
  fst (get_item_from_uuid_or_404 (scripted (single_page [])) 0%nat
         "7f3c1f0e-0000-4000-8000-000000000000")
  = Raise NotFound.
Proof.
  refine (proj1 (uuid_miss_not_found_but_no_segments
            (scripted (single_page [])) value value
            (fun v => Ok v) (fun _ => "env")
            (fun s _ => (Raise ObjectDoesNotExist, s))
            (fun v => Ok v) (fun _ _ => Ok [])
            0%nat "7f3c1f0e-0000-4000-8000-000000000000" _)).
  reflexivity.
Defined.

(** C10.  In a table kept as a map from composite keys to items, putting an
    item and then getting its composite key returns that item; the put
    replaces what was stored under the key and leaves other keys alone, and
    getting a key that was never written returns [None]. *)
Theorem put_then_get_round_trip (t : gmap string value) (item : value)
    (composite_key : string) :
  attr item "composite_key" = Some (VStr composite_key) ->
  fst (put_item t item) = Ok tt /\
  get_item (snd (put_item t item)) composite_key = Ok item /\
  (forall other, other <> composite_key ->
     get_item (snd (put_item t item)) other = get_item t other) /\
  (forall k, t !! k = None -> get_item t k = Ok VNone).
Proof.
  intros Hkey. unfold put_item, table_put_item. rewrite Hkey. cbn [fst snd].
  unfold get_item, table_get_item. cbn [attr assoc].
  rewrite String.eqb_refl. repeat split.
  - by rewrite lookup_insert_eq.
  - intros other Hne. by rewrite lookup_insert_ne.
  - intros k Hk. by rewrite Hk.
Qed.

Lemma put_then_get_witness :
  get_item (snd (put_item ∅ (sample_identity "alice" [override 1]))) "env_alice"
  = Ok (sample_identity "alice" [override 1]).
Proof.
  refine (proj1 (proj2 (put_then_get_round_trip ∅
            (sample_identity "alice" [override 1]) "env_alice" _))).
  reflexivity.
Defined.

(** ** Override aggregation *)

(** C3.  On the identity whose override list is
    [{feature: {id: 1}}, {feature: {id: 1}}, {feature: {id: 2}}],
    [get_identity_override_feature_counts] counts the identity once for
    feature 1 and once for feature 2, but [get_identity_overrides_count]
    raises [KeyError]: it reads [f["feature_id"]], which these entries do
    not have.  On entries with a top-level [feature_id] the count is 2, and
    then it is [get_identity_override_feature_counts] that finds no feature
    and files the identity under id 0. *)
Theorem duplicate_overrides_of_one_identity (IDENTITIES_PAGINATION_LIMIT : Z) :
  get_identity_overrides_count (scripted (single_page [identity_1_1_2]))
    IDENTITIES_PAGINATION_LIMIT 1 0%nat "env"
  = Some (Raise (KeyError "feature_id")) /\
  get_identity_override_feature_counts (scripted (single_page [identity_1_1_2]))
    IDENTITIES_PAGINATION_LIMIT 1 0%nat "env"
  = Some (Ok {[ HNum 1 := 1; HNum 2 := 1 ]}) /\
  get_identity_overrides_count (scripted (single_page [identity_1_1_2_flat]))
    IDENTITIES_PAGINATION_LIMIT 1 0%nat "env"
  = Some (Ok 2) /\
  get_identity_override_feature_counts
    (scripted (single_page [identity_1_1_2_flat]))
    IDENTITIES_PAGINATION_LIMIT 1 0%nat "env"
  = Some (Ok {[ HNum 0 := 1 ]}).
Proof. repeat split; vm_compute; reflexivity. Qed.

(** ** Bulk writes *)

(** C8.  An identifier of 1023 letters followed by one accented letter has
    1024 characters and 1025 bytes in UTF-8.  [write_identities] measures
    the identifier with [len], in characters, so it hands the identity to
    the batch writer and logs nothing; an identifier of 1025 plain letters
    is skipped and logged, and its neighbours are written. *)
Theorem bulk_write_measures_characters :
  py_len (VStr accented_identifier) = Ok 1024 /\
  utf8_length accented_identifier = 1025 /\
  write_identities SampleIdentity sample_id sample_document
    [alice; accented; bob] empty_batch
  = ({| put_requests := [sample_document alice; sample_document accented;
                         sample_document bob];
        warnings := [] |}, Ok tt) /\
  write_identities SampleIdentity sample_id sample_document
    [alice; plain_long; bob] empty_batch
  = ({| put_requests := [sample_document alice; sample_document bob];
        warnings := [4] |}, Ok tt).
Proof. repeat split; vm_compute; reflexivity. Qed.

Lemma py_hash_hashable v : hashable v = true -> py_hash v = Ok (hkey_of v).
Proof. by destruct v. Qed.

Lemma override_feature_id_in_shape e :
  entry_in_shape e = true ->
  override_feature_id e ≫= py_hash = Ok (entry_feature_id e).
Proof.
  destruct e as [| | | | |d]; try discriminate.
  unfold entry_in_shape, override_feature_id, entry_feature_id, py_get.
  destruct (assoc d "feature") as [[| | | | |f]|]; try discriminate.
  - cbn. destruct (assoc f "id") as [v|]; [apply py_hash_hashable | reflexivity].
  - reflexivity.
Qed.

Section Aggregation.

Lemma collect_set_in_shape entries :
  forall acc,
    forallb entry_in_shape entries = true ->
    collect_set override_feature_id entries acc
    = Ok (list_to_set (map entry_feature_id entries) ∪ acc).
Proof.
  induction entries as [|e entries IH]; intros acc Hs.
  - simpl. f_equal. set_solver.
  - apply andb_prop in Hs as [He Hs].
    pose proof (override_feature_id_in_shape e He) as Hread.
    cbn [collect_set].
    destruct (override_feature_id e) as [v|]; [|discriminate].
    cbn in Hread |- *. rewrite Hread. cbn.
    rewrite IH by done. f_equal. set_solver.
Qed.

Lemma unique_feature_ids_in_shape identity :
  identity_in_shape identity = true ->
  unique_feature_ids identity
  = Ok (list_to_set (map entry_feature_id (override_entries identity))).
Proof.
  destruct identity as [| | | | |d]; try discriminate.
  unfold identity_in_shape, unique_feature_ids, override_entries, py_get, attr.
  destruct (assoc d "identity_features") as [[| | | |entries|]|];
    try discriminate.
  - intros Hs. cbn. rewrite collect_set_in_shape by done.
    f_equal. set_solver.
  - intros _. cbn. f_equal.
Qed.

(** One identity adds one to the counter of each feature id in its set,
    and leaves the other counters alone. *)
Lemma count_identity_lookup (ids : gset hkey) (counts : gmap hkey Z) fid :
  count_identity ids counts !! fid
  = if decide (fid ∈ ids) then Some (default 0 (counts !! fid) + 1)
    else counts !! fid.
Proof.
  assert (H : (fid ∈ ids ->
               count_identity ids counts !! fid
               = Some (default 0 (counts !! fid) + 1)) /\
              (fid ∉ ids -> count_identity ids counts !! fid = counts !! fid)).
  { unfold count_identity.
    apply (set_fold_ind_L (fun m (X : gset hkey) =>
      (fid ∈ X -> m !! fid = Some (default 0 (counts !! fid) + 1)) /\
      (fid ∉ X -> m !! fid = counts !! fid))).
    - split; [set_solver | done].
    - intros x X m Hx [Hin Hout].
      destruct (decide (fid = x)) as [->|Hne].
      + split; [|set_solver]. intros _.
        by rewrite lookup_insert_eq, Hout.
      + rewrite lookup_insert_ne by done.
        split; intros ?; [apply Hin | apply Hout]; set_solver. }
  destruct H as [Hin Hout]. destruct (decide (fid ∈ ids)); auto.
Qed.

Lemma feature_counts_loop_in_shape identities :
  forall counts,
    forallb identity_in_shape identities = true ->
    exists counts',
      feature_counts_loop identities counts = Ok counts' /\
      forall fid,
        default 0 (counts' !! fid)
        = default 0 (counts !! fid)
          + Z.of_nat (length (List.filter (overrides_feature fid) identities)).
Proof.
  induction identities as [|identity identities IH]; intros counts Hs.
  - exists counts. split; [reflexivity|]. intros fid. simpl. lia.
  - apply andb_prop in Hs as [Hi Hs].
    cbn [feature_counts_loop].
    rewrite unique_feature_ids_in_shape by done. cbn.
    destruct (IH (count_identity
                    (list_to_set (map entry_feature_id (override_entries identity)))
                    counts) Hs) as (counts' & Hrun & Hcounts).
    exists counts'. split; [exact Hrun|].
    intros fid. rewrite Hcounts, count_identity_lookup.
    unfold overrides_feature at 2.
    destruct (decide (fid ∈ list_to_set (C:=gset hkey) _)) as [Hin|Hout].
    + rewrite bool_decide_eq_true_2 by set_solver. simpl length.
      simpl default. lia.
    + rewrite bool_decide_eq_false_2 by set_solver. lia.
Qed.

End Aggregation.

(** C4, as amended.  [get_identity_override_feature_counts] reads the
    feature id of an override entry that has no [feature], or whose feature
    has no [id], as 0.  When the scan ends and every identity it yields is
    in shape (its override entries are objects whose feature, where present,
    is an object whose id, where present, is hashable), the aggregation
    returns normally, and the counter of each feature id is the number of
    identities that override it, a missing id counting as id 0. *)
Theorem missing_feature_id_counts_as_zero {St : Type}
    (table_query : St -> QueryInput -> QueryOutput * St)
    (IDENTITIES_PAGINATION_LIMIT : Z) (fuel : nat) (s : St)
    (environment_api_key : string) :
  let run := iter_all_items_paginated table_query fuel s environment_api_key
               IDENTITIES_PAGINATION_LIMIT None Inf true in
  outcome run = Exhausted ->
  forallb identity_in_shape (yields (trace run)) = true ->
  (exists counts,
     get_identity_override_feature_counts table_query
       IDENTITIES_PAGINATION_LIMIT fuel s environment_api_key
     = Some (Ok counts) /\
     forall feature_id,
       default 0 (counts !! feature_id)
       = Z.of_nat (length (List.filter (overrides_feature feature_id)
                             (yields (trace run))))) /\
  (forall d, assoc d "feature" = None ->
             override_feature_id (VDict d) = Ok (VNum 0)) /\
  (forall d f, assoc d "feature" = Some (VDict f) -> assoc f "id" = None ->
               override_feature_id (VDict d) = Ok (VNum 0)).
Proof.
  intros run Hend Hshape. repeat split.
  - destruct (feature_counts_loop_in_shape (yields (trace run)) ∅ Hshape)
      as (counts & Hrun & Hcounts).
    exists counts. split.
    + unfold get_identity_override_feature_counts, consume.
      fold run. by rewrite Hrun, Hend.
    + intros fid. rewrite Hcounts, lookup_empty. simpl. lia.
  - intros d Hd. unfold override_feature_id, py_get. by rewrite Hd.
  - intros d f Hd Hf. unfold override_feature_id, py_get. rewrite Hd. cbn.
    by rewrite Hf.
Qed.

Lemma missing_feature_id_witness :
  exists counts,
    get_identity_override_feature_counts
      (scripted (single_page [identity_with_gaps; identity_1_1_2])) 1000 1
      0%nat "env"
    = Some (Ok counts) /\
    forall feature_id,
      default 0 (counts !! feature_id)
      = Z.of_nat (length (List.filter (overrides_feature feature_id)
                            [identity_with_gaps; identity_1_1_2])).
Proof.
  refine (proj1 (missing_feature_id_counts_as_zero
            (scripted (single_page [identity_with_gaps; identity_1_1_2]))
            1000 1 0%nat "env" _ _)).
  - reflexivity.
  - reflexivity.
Defined.

(** C4 as stated fails: a feature id that is present but malformed is not
    replaced by 0.  A text id is counted under that text, and the counter of
    id 0 stays untouched; a feature that is [None] makes the aggregation
    raise [AttributeError]. *)
Lemma malformed_feature_id_not_defaulted :
  get_identity_override_feature_counts
    (scripted (single_page [identity_with_text_id])) 1000 1 0%nat "env"
  = Some (Ok {[ HStr "abc" := 1 ]}) /\
  ({[ HStr "abc" := 1 ]} : gmap hkey Z) !! HNum 0 = None /\
  get_identity_override_feature_counts
    (scripted (single_page [identity_with_null_feature])) 1000 1 0%nat "env"
  = Some (Raise AttributeError).
Proof. repeat split; vm_compute; reflexivity. Qed.

(** * Further properties of the wrapper *)

(** ** Invariants of every scan *)

Section ScanInvariants.

Context {St : Type}.
Variable table_query : St -> QueryInput -> QueryOutput * St.

Lemma scan_loop_spent fuel B :
  forall s kw sp,
    spent (scan_loop table_query fuel B s kw sp)
    = fold_left add_capacity
        (responses (trace (scan_loop table_query fuel B s kw sp))) sp.
Proof.
  induction fuel as [|fuel IH]; intros s kw sp; [reflexivity|].
  destruct (budget_reached sp B) eqn:Hb.
  - by rewrite scan_loop_raise.
  - rewrite scan_loop_step by done. cbn zeta.
    rewrite spent_emit, trace_emit, responses_app.
    cbn [page_events responses]. rewrite responses_yield.
    cbn [app fold_left].
    destruct (has_continuation _); [apply IH | reflexivity].
Qed.

Lemma scan_loop_budget_error fuel B :
  forall s kw sp b c,
    outcome (scan_loop table_query fuel B s kw sp)
    = Raised (CapacityBudgetExceeded b c) ->
    b = B /\
    c = spent (scan_loop table_query fuel B s kw sp) /\
    compare_budget (spent (scan_loop table_query fuel B s kw sp)) B = Ok true.
Proof.
  induction fuel as [|fuel IH]; intros s kw sp b c; [discriminate|].
  destruct (budget_reached sp B) eqn:Hb.
  - rewrite scan_loop_raise by done. cbn [outcome spent].
    unfold budget_reached in Hb.
    destruct (compare_budget sp B) as [[|]|e] eqn:Hc.
    + by intros [= <- <-].
    + discriminate.
    + apply compare_budget_raises in Hc as ->. discriminate.
  - rewrite scan_loop_step by done. cbn zeta.
    rewrite outcome_emit, spent_emit.
    destruct (has_continuation _); [apply IH | discriminate].
Qed.

Lemma scan_loop_start_keys fuel B :
  forall s kw sp,
    Forall (fun q => ExclusiveStartKey q = None \/
                     exists k, ExclusiveStartKey q = Some k /\ truthy k = true)
      (queries (trace (scan_loop table_query fuel B s kw sp))).
Proof.
  induction fuel as [|fuel IH]; intros s kw sp; [constructor|].
  destruct (budget_reached sp B) eqn:Hb.
  - rewrite scan_loop_raise by done. constructor.
  - rewrite scan_loop_step by done. cbn zeta.
    rewrite trace_emit, queries_app. cbn [page_events queries].
    rewrite queries_yield. cbn [app]. constructor.
    + cbn. destruct (start_key kw) as [k|]; [|by left]. cbn.
      destruct (truthy k) eqn:Ht; [right; eauto | by left].
    + destruct (has_continuation _); [apply IH | constructor].
Qed.

Lemma scan_loop_projection fuel B :
  forall s kw sp,
    Forall (fun q => ProjectionExpression q
                     = ProjectionExpression (get_all_items_query kw))
      (queries (trace (scan_loop table_query fuel B s kw sp))).
Proof.
  induction fuel as [|fuel IH]; intros s kw sp; [constructor|].
  destruct (budget_reached sp B) eqn:Hb.
  - rewrite scan_loop_raise by done. constructor.
  - rewrite scan_loop_step by done. cbn zeta.
    rewrite trace_emit, queries_app. cbn [page_events queries].
    rewrite queries_yield. cbn [app]. constructor; [reflexivity|].
    destruct (has_continuation _); [|constructor].
    apply (IH _ (with_start_key kw _)).
Qed.

End ScanInvariants.

(** X1.  Whatever the store, the budget, the flag and the fuel: the items
    yielded so far are the items of the pages received so far, in order, also
    when the scan goes on to raise; the first request carries no start key,
    every later one the continuation key of the page before it, and no
    request carries an empty start key. *)
Theorem scan_pagination_invariants {St : Type}
    (table_query : St -> QueryInput -> QueryOutput * St) (fuel : nat) (s : St)
    (environment_api_key : string) (limit : Z)
    (projection_expression : option string) (B : budget)
    (overrides_only : bool) :
  let run := iter_all_items_paginated table_query fuel s environment_api_key
               limit projection_expression B overrides_only in
  yields (trace run) = concat (map Items (responses (trace run))) /\
  chained None (trace run) /\
  Forall (fun q => ExclusiveStartKey q = None \/
                   exists k, ExclusiveStartKey q = Some k /\ truthy k = true)
    (queries (trace run)).
Proof.
  intros run. subst run. unfold iter_all_items_paginated.
  split; [apply scan_loop_yields|].
  split; [|apply scan_loop_start_keys].
  apply (scan_loop_chained table_query fuel B s
           (initial_kwargs environment_api_key limit projection_expression B
              overrides_only)).
  reflexivity.
Qed.

(** X2.  Every request of a scan carries the same arguments apart from the
    start key: the environment's partition key condition on the identifier
    index, the caller's limit, the override filter exactly when
    [overrides_only] is set, and the caller's projection unless it is absent
    or the empty string, in which case none is sent. *)
Theorem scan_requests_are_uniform {St : Type}
    (table_query : St -> QueryInput -> QueryOutput * St) (fuel : nat) (s : St)
    (environment_api_key : string) (limit : Z)
    (projection_expression : option string) (B : budget)
    (overrides_only : bool) :
  Forall (fun q =>
            IndexName q = "environment_api_key-identifier-index" /\
            KeyConditionExpression q
              = KeyEq "environment_api_key" (VStr environment_api_key) /\
            Limit q = limit /\
            FilterExpression q
              = (if overrides_only
                 then Some (AttrNe "identity_features" (VList []))
                 else None) /\
            ProjectionExpression q
              = match projection_expression with
                | Some "" | None => None
                | Some p => Some p
                end)
    (queries (trace (iter_all_items_paginated table_query fuel s
                       environment_api_key limit projection_expression B
                       overrides_only))).
Proof.
  unfold iter_all_items_paginated.
  set (kw0 := initial_kwargs _ _ _ _ _).
  pose proof (scan_loop_requests table_query fuel B s kw0 0%float) as Hreq.
  pose proof (scan_loop_projection table_query fuel B s kw0 0%float) as Hproj.
  rewrite Forall_forall in Hreq, Hproj. apply Forall_forall. intros q Hq.
  destruct (Hreq q Hq) as (Hi & Hk & Hl & Hf & _).
  repeat split; try done.
  rewrite (Hproj q Hq). cbn.
  destruct projection_expression as [p|]; [|reflexivity].
  cbn. by destruct p.
Qed.

(** X3.  [capacity_spent] is the floating-point sum of the capacity figures
    of the pages received, added in page order from zero (a page without a
    figure adds nothing).  When the scan raises [CapacityBudgetExceeded],
    the error carries the caller's budget and that sum, and that sum
    compares at least the budget. *)
Theorem scan_accounts_for_reported_capacity {St : Type}
    (table_query : St -> QueryInput -> QueryOutput * St) (fuel : nat) (s : St)
    (environment_api_key : string) (limit : Z)
    (projection_expression : option string) (B : budget)
    (overrides_only : bool) :
  let run := iter_all_items_paginated table_query fuel s environment_api_key
               limit projection_expression B overrides_only in
  spent run = fold_left add_capacity (responses (trace run)) 0%float /\
  (forall b c, outcome run = Raised (CapacityBudgetExceeded b c) ->
     b = B /\ c = spent run /\ compare_budget (spent run) B = Ok true).
Proof.
  intros run. subst run. unfold iter_all_items_paginated. split.
  - apply scan_loop_spent.
  - apply scan_loop_budget_error.
Qed.

(** ** Bulk writes, for any mapper *)

Section BulkWriteProperties.

Variable Identity : Type.
Variable identity_id : Identity -> Z.
Variable map_identity_to_identity_document : Identity -> value.

#[local] Abbreviation write :=
  (write_identities Identity identity_id map_identity_to_identity_document).
#[local] Abbreviation document := map_identity_to_identity_document.

Lemma identifier_length_of_str doc s :
  str_identifier doc = Some s ->
  (identifier ← py_getitem doc "identifier"; py_len identifier)
  = Ok (Z.of_nat (String.length s)).
Proof.
  unfold str_identifier, attr, py_getitem.
  destruct doc as [| | | | |d]; try discriminate.
  destruct (assoc d "identifier") as [[| | |s'| |]|]; try discriminate.
  by intros [= ->].
Qed.

Lemma write_identities_app l1 l2 b :
  write (l1 ++ l2) b
  = match snd (write l1 b) with
    | Ok _ => write l2 (fst (write l1 b))
    | Raise e => (fst (write l1 b), Raise e)
    end.
Proof.
  revert b. induction l1 as [|i l1 IH]; intros b; [reflexivity|].
  cbn [app write_identities].
  destruct (_ ← py_getitem (document i) "identifier"; _) as [n|e];
    [|reflexivity].
  destruct (1024 <? n); apply IH.
Qed.

Lemma write_identities_by_length identities :
  forall b,
    Forall (fun i => is_Some (str_identifier (document i))) identities ->
    write identities b
    = ({| put_requests :=
            put_requests b
            ++ List.filter identifier_fits (map document identities);
          warnings :=
            warnings b
            ++ map identity_id
                 (List.filter (fun i => negb (identifier_fits (document i)))
                    identities) |},
       Ok tt).
Proof.
  induction identities as [|i identities IH]; intros b Hstr.
  - cbn. rewrite !app_nil_r. by destruct b.
  - apply Forall_cons in Hstr as [[s Hs] Hstr].
    assert (Hfit : identifier_fits (document i)
                   = (Z.of_nat (String.length s) <=? 1024)).
    { unfold identifier_fits. by rewrite Hs. }
    cbn [write_identities map List.filter].
    rewrite (identifier_length_of_str _ _ Hs), Z.ltb_antisym, <- Hfit.
    destruct (identifier_fits (document i)); cbn [negb];
      rewrite IH by done; cbn; by rewrite <- !app_assoc.
Qed.

End BulkWriteProperties.

(** X6.  When every document has a string identifier, [write_identities]
    hands the batch writer exactly the documents whose identifier has at
    most 1024 characters, in the order of the input, logs one warning with
    the id of each other identity, in order, and returns normally: a skipped
    identity never stops the identities after it. *)
Theorem bulk_write_keeps_short_identifiers (Identity : Type)
    (identity_id : Identity -> Z)
    (map_identity_to_identity_document : Identity -> value)
    (identities : list Identity) :
  Forall (fun i => is_Some (str_identifier (map_identity_to_identity_document i)))
    identities ->
  write_identities Identity identity_id map_identity_to_identity_document
    identities empty_batch
  = ({| put_requests :=
          List.filter identifier_fits
            (map map_identity_to_identity_document identities);
        warnings :=
          map identity_id
            (List.filter
               (fun i => negb (identifier_fits
                                 (map_identity_to_identity_document i)))
               identities) |},
     Ok tt).
Proof.
  intros Hstr. by rewrite write_identities_by_length.
Qed.

Lemma bulk_write_keeps_short_witness :
  write_identities SampleIdentity sample_id sample_document
    [alice; plain_long; bob] empty_batch
  = ({| put_requests :=
          List.filter identifier_fits
            (map sample_document [alice; plain_long; bob]);
        warnings :=
          map sample_id
            (List.filter (fun i => negb (identifier_fits (sample_document i)))
               [alice; plain_long; bob]) |},
     Ok tt).
Proof.
  refine (bulk_write_keeps_short_identifiers SampleIdentity sample_id
            sample_document [alice; plain_long; bob] _).
  repeat constructor; eexists; reflexivity.
Defined.

(** X7.  A document without an [identifier] stops the bulk write with
    [KeyError]: the identities before it have been handed to the batch
    writer or logged as usual, and no identity after it is written or
    logged. *)
Theorem bulk_write_stops_at_missing_identifier (Identity : Type)
    (identity_id : Identity -> Z)
    (map_identity_to_identity_document : Identity -> value)
    (before after : list Identity) (bad : Identity)
    (d : list (string * value)) :
  Forall (fun i => is_Some (str_identifier (map_identity_to_identity_document i)))
    before ->
  map_identity_to_identity_document bad = VDict d ->
  assoc d "identifier" = None ->
  write_identities Identity identity_id map_identity_to_identity_document
    (before ++ bad :: after) empty_batch
  = (fst (write_identities Identity identity_id
            map_identity_to_identity_document before empty_batch),
     Raise (KeyError "identifier")).
Proof.
  intros Hstr Hdoc Hmissing.
  rewrite write_identities_app, write_identities_by_length by done.
  cbn [fst snd write_identities]. rewrite Hdoc. cbn [py_getitem].
  by rewrite Hmissing.
Qed.

Lemma bulk_write_stops_witness :
  write_identities SampleIdentity sample_id lossy_document
    ([alice] ++ accented :: [bob]) empty_batch
  = (fst (write_identities SampleIdentity sample_id lossy_document
            [alice] empty_batch),
     Raise (KeyError "identifier")).
Proof.
  refine (bulk_write_stops_at_missing_identifier SampleIdentity sample_id
            lossy_document [alice] [bob] accented
            [("composite_key", VStr "env_")] _ _ _).
  - repeat constructor. eexists. reflexivity.
  - reflexivity.
  - reflexivity.
Defined.

(** ** Override aggregation, in general *)

Lemma list_to_set_remove_dups_L (l : list hkey) :
  list_to_set (C:=gset hkey) (remove_dups l) = list_to_set l.
Proof.
  apply set_eq. intros x.
  by rewrite !elem_of_list_to_set, elem_of_remove_dups.
Qed.

Lemma size_list_to_set_distinct (l : list hkey) :
  size (list_to_set (C:=gset hkey) l) = length (remove_dups l).
Proof.
  rewrite <- list_to_set_remove_dups_L.
  apply size_list_to_set, NoDup_remove_dups.
Qed.

Lemma collect_set_flat entries :
  forall acc,
    forallb flat_entry_in_shape entries = true ->
    collect_set (fun f => py_getitem f "feature_id") entries acc
    = Ok (list_to_set (map flat_feature_id entries) ∪ acc).
Proof.
  induction entries as [|e entries IH]; intros acc Hs.
  - cbn. f_equal. set_solver.
  - apply andb_prop in Hs as [He Hs].
    cbn [collect_set map].
    destruct e as [| | | | |d]; try discriminate.
    cbn in He |- *.
    destruct (assoc d "feature_id") as [v|]; [|discriminate].
    cbn. rewrite (py_hash_hashable v He). cbn.
    rewrite IH by done. f_equal. set_solver.
Qed.

Lemma identity_overrides_count_flat identity :
  flat_identity_in_shape identity = true ->
  identity_overrides_count identity
  = Ok (Z.of_nat (length (distinct_feature_ids identity))).
Proof.
  unfold flat_identity_in_shape, identity_overrides_count,
    distinct_feature_ids, override_entries, attr, py_getitem.
  destruct identity as [| | | | |d]; try discriminate.
  destruct (assoc d "identity_features") as [[| | | |entries|]|];
    try discriminate.
  intros Hs. cbn. rewrite collect_set_flat by done. cbn.
  by rewrite union_empty_r_L, size_list_to_set_distinct.
Qed.

Lemma sum_over_flat identities :
  forall acc,
    forallb flat_identity_in_shape identities = true ->
    sum_over identity_overrides_count identities acc
    = Ok (acc + sum_list (map (fun i => Z.of_nat (length (distinct_feature_ids i)))
                            identities)).
Proof.
  induction identities as [|i identities IH]; intros acc Hs.
  - cbn. f_equal. lia.
  - apply andb_prop in Hs as [Hi Hs].
    cbn [sum_over map sum_list].
    rewrite identity_overrides_count_flat by done. cbn.
    rewrite IH by done. f_equal. lia.
Qed.

Lemma sum_over_app f l1 l2 acc :
  sum_over f (l1 ++ l2) acc
  = match sum_over f l1 acc with
    | Ok n => sum_over f l2 n
    | Raise e => Raise e
    end.
Proof.
  revert acc. induction l1 as [|x l1 IH]; intros acc; [reflexivity|].
  cbn [app sum_over]. destruct (f x) as [n|e]; [apply IH | reflexivity].
Qed.

(** X8.  When the scan ends and every identity it yields has a list of
    override entries with a hashable [feature_id] each,
    [get_identity_overrides_count] returns the sum, over the identities, of
    the number of distinct feature ids of each: a feature id repeated within
    one identity counts once, the same id under two identities counts
    twice, and an environment without such identities gives 0. *)
Theorem overrides_count_sums_distinct_ids {St : Type}
    (table_query : St -> QueryInput -> QueryOutput * St)
    (IDENTITIES_PAGINATION_LIMIT : Z) (fuel : nat) (s : St)
    (environment_api_key : string) :
  let run := iter_all_items_paginated table_query fuel s environment_api_key
               IDENTITIES_PAGINATION_LIMIT None Inf true in
  outcome run = Exhausted ->
  forallb flat_identity_in_shape (yields (trace run)) = true ->
  get_identity_overrides_count table_query IDENTITIES_PAGINATION_LIMIT fuel s
    environment_api_key
  = Some (Ok (sum_list (map (fun i => Z.of_nat (length (distinct_feature_ids i)))
                          (yields (trace run))))).
Proof.
  intros run Hend Hshape.
  unfold get_identity_overrides_count, consume. fold run.
  by rewrite sum_over_flat, Hend.
Qed.

Lemma overrides_count_witness :
  get_identity_overrides_count
    (scripted (single_page [identity_1_1_2_flat; carol_flat])) 1000 1 0%nat
    "env"
  = Some (Ok (sum_list (map (fun i => Z.of_nat (length (distinct_feature_ids i)))
                          [identity_1_1_2_flat; carol_flat]))).
Proof.
  refine (overrides_count_sums_distinct_ids
            (scripted (single_page [identity_1_1_2_flat; carol_flat]))
            1000 1 0%nat "env" _ _).
  - reflexivity.
  - reflexivity.
Defined.

(** X9.  A yielded record without [identity_features] makes
    [get_identity_overrides_count] raise [KeyError], whatever follows it in
    the scan and however the scan would end, where
    [get_identity_override_feature_counts] takes the same record for an
    identity without overrides. *)
Theorem overrides_count_needs_identity_features {St : Type}
    (table_query : St -> QueryInput -> QueryOutput * St)
    (IDENTITIES_PAGINATION_LIMIT : Z) (fuel : nat) (s : St)
    (environment_api_key : string)
    (before after : list value) (d : list (string * value)) :
  yields (trace (iter_all_items_paginated table_query fuel s
                   environment_api_key IDENTITIES_PAGINATION_LIMIT None Inf
                   true))
  = before ++ VDict d :: after ->
  forallb flat_identity_in_shape before = true ->
  assoc d "identity_features" = None ->
  get_identity_overrides_count table_query IDENTITIES_PAGINATION_LIMIT fuel s
    environment_api_key
  = Some (Raise (KeyError "identity_features")) /\
  unique_feature_ids (VDict d) = Ok ∅.
Proof.
  intros Hyields Hshape Hmissing. split.
  - unfold get_identity_overrides_count, consume.
    rewrite Hyields, sum_over_app, sum_over_flat by done.
    cbn [sum_over]. unfold identity_overrides_count, py_getitem.
    by rewrite Hmissing.
  - unfold unique_feature_ids, py_get. by rewrite Hmissing.
Qed.

Lemma overrides_count_needs_witness :
  get_identity_overrides_count
    (scripted (single_page [carol_flat; bare_identity; carol_flat])) 1000 1
    0%nat "env"
  = Some (Raise (KeyError "identity_features")).
Proof.
  refine (proj1 (overrides_count_needs_identity_features
            (scripted (single_page [carol_flat; bare_identity; carol_flat]))
            1000 1 0%nat "env" [carol_flat] [carol_flat]
            [("composite_key", VStr "env_frank")] _ _ _)).
  - reflexivity.
  - reflexivity.
  - reflexivity.
Defined.

Lemma feature_counts_loop_exact identities :
  forall counts,
    forallb identity_in_shape identities = true ->
    exists counts',
      feature_counts_loop identities counts = Ok counts' /\
      forall fid,
        counts' !! fid
        = match overriders fid identities with
          | O => counts !! fid
          | S _ =>
              Some (default 0 (counts !! fid)
                    + Z.of_nat (overriders fid identities))
          end.
Proof.
  induction identities as [|identity identities IH]; intros counts Hs.
  - exists counts. split; reflexivity.
  - apply andb_prop in Hs as [Hi Hs].
    cbn [feature_counts_loop].
    rewrite unique_feature_ids_in_shape by done. cbn.
    destruct (IH (count_identity
                    (list_to_set (map entry_feature_id (override_entries identity)))
                    counts) Hs) as (counts' & Hrun & Hcounts).
    exists counts'. split; [exact Hrun|].
    intros fid. rewrite Hcounts, count_identity_lookup.
    unfold overriders. cbn [List.filter].
    destruct (decide (fid ∈ list_to_set (C:=gset hkey) _)) as [Hin|Hout].
    + assert (Hov : overrides_feature fid identity = true).
      { unfold overrides_feature. apply bool_decide_eq_true_2. set_solver. }
      rewrite Hov. cbn [length].
      destruct (length _) as [|n]; cbn [default from_option id];
        f_equal; unfold id; lia.
    + assert (Hov : overrides_feature fid identity = false).
      { unfold overrides_feature. apply bool_decide_eq_false_2. set_solver. }
      by rewrite Hov.
Qed.

(** X10.  When the scan ends and every identity it yields is in shape,
    the mapping that [get_identity_override_feature_counts] returns has a
    key for exactly the feature ids that some identity overrides, and the
    value under a key is the number of identities that override it: there
    is no entry with count zero, and an environment without overrides gives
    the empty mapping. *)
Theorem feature_counts_are_exact {St : Type}
    (table_query : St -> QueryInput -> QueryOutput * St)
    (IDENTITIES_PAGINATION_LIMIT : Z) (fuel : nat) (s : St)
    (environment_api_key : string) :
  let run := iter_all_items_paginated table_query fuel s environment_api_key
               IDENTITIES_PAGINATION_LIMIT None Inf true in
  outcome run = Exhausted ->
  forallb identity_in_shape (yields (trace run)) = true ->
  exists counts,
    get_identity_override_feature_counts table_query
      IDENTITIES_PAGINATION_LIMIT fuel s environment_api_key
    = Some (Ok counts) /\
    forall feature_id,
      counts !! feature_id
      = match overriders feature_id (yields (trace run)) with
        | O => None
        | S n => Some (Z.of_nat (S n))
        end.
Proof.
  intros run Hend Hshape.
  destruct (feature_counts_loop_exact (yields (trace run)) ∅ Hshape)
    as (counts & Hrun & Hcounts).
  exists counts. split.
  - unfold get_identity_override_feature_counts, consume.
    fold run. by rewrite Hrun, Hend.
  - intros fid. rewrite Hcounts, lookup_empty.
    destruct (overriders fid (yields (trace run))); [reflexivity|].
    f_equal.
Qed.

Lemma feature_counts_exact_witness :
  exists counts,
    get_identity_override_feature_counts
      (scripted (single_page [identity_with_gaps; identity_1_1_2])) 1000 1
      0%nat "env"
    = Some (Ok counts) /\
    forall feature_id,
      counts !! feature_id
      = match overriders feature_id [identity_with_gaps; identity_1_1_2] with
        | O => None
        | S n => Some (Z.of_nat (S n))
        end.
Proof.
  refine (feature_counts_are_exact
            (scripted (single_page [identity_with_gaps; identity_1_1_2]))
            1000 1 0%nat "env" _ _).
  - reflexivity.
  - reflexivity.
Defined.

(** ** Deleting the identities of an environment *)

Lemma py_getitem_composite_key item :
  has_composite_key item = true ->
  py_getitem item "composite_key"
  = Ok (default VNone (attr item "composite_key")).
Proof.
  unfold has_composite_key, attr, py_getitem.
  destruct item as [| | | | |d]; try discriminate.
  by destruct (assoc d "composite_key").
Qed.

Lemma delete_items_all items :
  forall deleted,
    forallb has_composite_key items = true ->
    delete_items items deleted = (deleted ++ map delete_key items, Ok tt).
Proof.
  induction items as [|item items IH]; intros deleted Hk.
  - cbn. by rewrite app_nil_r.
  - apply andb_prop in Hk as [Hi Hk].
    cbn [delete_items map]. rewrite py_getitem_composite_key by done.
    rewrite IH by done. by rewrite <- app_assoc.
Qed.

Lemma delete_items_app l1 l2 deleted :
  delete_items (l1 ++ l2) deleted
  = match snd (delete_items l1 deleted) with
    | Ok _ => delete_items l2 (fst (delete_items l1 deleted))
    | Raise e => (fst (delete_items l1 deleted), Raise e)
    end.
Proof.
  revert deleted. induction l1 as [|x l1 IH]; intros deleted; [reflexivity|].
  cbn [app delete_items].
  destruct (py_getitem x "composite_key"); [apply IH | reflexivity].
Qed.

(** X11.  [delete_all_identities] reads the environment with a scan that
    asks for the attribute [composite_key] only, without filter and without
    capacity reporting; when that scan ends and every item it yields has a
    composite key, the batch writer is handed one delete per item yielded,
    keyed by that item's composite key, in the order of the scan, and the
    call returns normally. *)
Theorem delete_all_deletes_every_item {St : Type}
    (table_query : St -> QueryInput -> QueryOutput * St)
    (IDENTITIES_PAGINATION_LIMIT : Z) (fuel : nat) (s : St)
    (environment_api_key : string) :
  let run := delete_all_scan table_query IDENTITIES_PAGINATION_LIMIT fuel s
               environment_api_key in
  outcome run = Exhausted ->
  forallb has_composite_key (yields (trace run)) = true ->
  delete_all_identities table_query IDENTITIES_PAGINATION_LIMIT fuel s
    environment_api_key
  = (map delete_key (concat (map Items (responses (trace run)))),
     Some (Ok tt)) /\
  Forall (fun q =>
            ProjectionExpression q = Some "composite_key" /\
            FilterExpression q = None /\
            ReturnConsumedCapacity q = None /\
            Limit q = IDENTITIES_PAGINATION_LIMIT)
    (queries (trace run)).
Proof.
  intros run Hend Hkeys. split.
  - unfold delete_all_identities. fold run.
    rewrite delete_items_all by done. cbn [fst snd app]. rewrite Hend.
    do 2 f_equal. apply scan_loop_yields.
  - subst run. unfold delete_all_scan, iter_all_items_paginated.
    set (kw0 := initial_kwargs _ _ _ _ _).
    pose proof (scan_loop_requests table_query fuel Inf s kw0 0%float) as Hreq.
    pose proof (scan_loop_projection table_query fuel Inf s kw0 0%float) as Hproj.
    rewrite Forall_forall in Hreq, Hproj. apply Forall_forall. intros q Hq.
    destruct (Hreq q Hq) as (_ & _ & Hl & Hf & Hr).
    rewrite (Hproj q Hq). auto.
Qed.

Lemma delete_all_witness :
  delete_all_identities (scripted key_pages) 1000 5 0%nat "env"
  = (map delete_key
       (concat (map Items
          (responses (trace (delete_all_scan (scripted key_pages) 1000 5
                               0%nat "env"))))),
     Some (Ok tt)).
Proof.
  refine (proj1 (delete_all_deletes_every_item (scripted key_pages) 1000 5
                   0%nat "env" _ _)).
  - reflexivity.
  - reflexivity.
Defined.

(** X12.  An item without a composite key stops [delete_all_identities]
    with [KeyError]: deletes have been handed to the batch writer for the
    items before it and for no item after it. *)
Theorem delete_all_stops_at_missing_key {St : Type}
    (table_query : St -> QueryInput -> QueryOutput * St)
    (IDENTITIES_PAGINATION_LIMIT : Z) (fuel : nat) (s : St)
    (environment_api_key : string)
    (before after : list value) (d : list (string * value)) :
  yields (trace (delete_all_scan table_query IDENTITIES_PAGINATION_LIMIT fuel
                   s environment_api_key))
  = before ++ VDict d :: after ->
  forallb has_composite_key before = true ->
  assoc d "composite_key" = None ->
  delete_all_identities table_query IDENTITIES_PAGINATION_LIMIT fuel s
    environment_api_key
  = (map delete_key before, Some (Raise (KeyError "composite_key"))).
Proof.
  intros Hyields Hkeys Hmissing.
  unfold delete_all_identities. rewrite Hyields.
  rewrite delete_items_app, delete_items_all by done.
  cbn [fst snd app delete_items py_getitem]. by rewrite Hmissing.
Qed.

Lemma delete_all_stops_witness :
  delete_all_identities
    (scripted (single_page [VDict [("composite_key", VStr "env_alice")];
                            VDict [("identifier", VStr "bob")];
                            VDict [("composite_key", VStr "env_carol")]]))
    1000 5 0%nat "env"
  = (map delete_key [VDict [("composite_key", VStr "env_alice")]],
     Some (Raise (KeyError "composite_key"))).
Proof.
  refine (delete_all_stops_at_missing_key
            (scripted (single_page [VDict [("composite_key", VStr "env_alice")];
                                    VDict [("identifier", VStr "bob")];
                                    VDict [("composite_key", VStr "env_carol")]]))
            1000 5 0%nat "env"
            [VDict [("composite_key", VStr "env_alice")]]
            [VDict [("composite_key", VStr "env_carol")]]
            [("identifier", VStr "bob")] _ _ _).
  - reflexivity.
  - reflexivity.
  - reflexivity.
Defined.

(** ** Lookup by uuid and segment membership, in general *)

(** X13.  Both uuid lookups send one query to the [identity_uuid-index]
    with limit 1 and return the first item of its page when there is one;
    they differ only on a miss, and [get_item_from_uuid_or_404] never lets
    [ObjectDoesNotExist] or [IndexError] out. *)
Theorem uuid_lookup_returns_first_item {St : Type}
    (table_query : St -> QueryInput -> QueryOutput * St) (s : St)
    (uuid : string) :
  (forall item rest,
     Items (fst (table_query s (uuid_query uuid))) = item :: rest ->
     fst (get_item_from_uuid table_query s uuid) = Ok item /\
     fst (get_item_from_uuid_or_404 table_query s uuid) = Ok item) /\
  fst (get_item_from_uuid_or_404 table_query s uuid) <> Raise ObjectDoesNotExist /\
  fst (get_item_from_uuid_or_404 table_query s uuid) <> Raise IndexError /\
  fst (get_item_from_uuid table_query s uuid) <> Raise IndexError /\
  snd (get_item_from_uuid_or_404 table_query s uuid)
  = snd (table_query s (uuid_query uuid)).
Proof.
  unfold get_item_from_uuid_or_404, get_item_from_uuid, query_items.
  cbn [fst snd].
  destruct (Items (fst (table_query s (uuid_query uuid)))) as [|item rest];
    cbn.
  - split; [intros item rest; discriminate|].
    repeat split; discriminate.
  - split; [by intros item' rest' [= <- <-]|].
    repeat split; discriminate.
Qed.

Section SegmentIds.

Context {St : Type}.
Variable table_query : St -> QueryInput -> QueryOutput * St.
Variable IdentityModel : Type.
Variable EnvironmentModel : Type.
Variable identity_model_validate : value -> result IdentityModel.
Variable identity_environment_api_key : IdentityModel -> string.
Variable environment_get_item : St -> string -> result value * St.
Variable environment_model_validate : value -> result EnvironmentModel.
Variable context_segment_ids :
  EnvironmentModel -> IdentityModel -> result (list Z).

Lemma except_never_object_does_not_exist (r : result (list Z)) :
  except_ is_ObjectDoesNotExist r (Ok []) <> Raise ObjectDoesNotExist.
Proof. destruct r as [ids|[]]; cbn; discriminate. Qed.

(** X14.  [get_segment_ids] never raises [ObjectDoesNotExist], whatever
    the table, the environment wrapper and the flag engine do. *)
Theorem segment_ids_never_object_does_not_exist (s : St)
    (identity_pk : option string) (identity_model : option IdentityModel) :
  fst (get_segment_ids table_query IdentityModel EnvironmentModel
         identity_model_validate identity_environment_api_key
         environment_get_item environment_model_validate context_segment_ids
         s identity_pk identity_model) <> Raise ObjectDoesNotExist.
Proof.
  unfold get_segment_ids.
  destruct (negb _); cbn [fst]; [discriminate|].
  apply except_never_object_does_not_exist.
Qed.

(** X15.  Called with neither a non-empty [identity_pk] nor an
    [identity_model], [get_segment_ids] raises [ValueError] before it
    touches the store. *)
Theorem segment_ids_requires_an_argument (s : St)
    (identity_pk : option string) :
  identity_pk = None \/ identity_pk = Some "" ->
  get_segment_ids table_query IdentityModel EnvironmentModel
         identity_model_validate identity_environment_api_key
         environment_get_item environment_model_validate context_segment_ids
         s identity_pk None
  = (Raise (ValueError "Must provide one of identity_pk or identity_model."),
     s).
Proof. by intros [-> | ->]. Qed.

(** With an [identity_model] the call goes straight to the environment
    wrapper, with the store as it was. *)
Lemma segment_ids_with_model (s : St) (identity_pk : option string)
    (m : IdentityModel) :
  get_segment_ids table_query IdentityModel EnvironmentModel
         identity_model_validate identity_environment_api_key
         environment_get_item environment_model_validate context_segment_ids
         s identity_pk (Some m)
  = (except_ is_ObjectDoesNotExist
       (document ← fst (environment_get_item s (identity_environment_api_key m));
        environment ← environment_model_validate document;
        context_segment_ids environment m)
       (Ok []),
     snd (environment_get_item s (identity_environment_api_key m))).
Proof.
  unfold get_segment_ids.
  rewrite bool_decide_eq_true_2 by eauto.
  by rewrite orb_true_r.
Qed.

(** X17.  When the identity is found by its uuid and the environment
    wrapper raises [ObjectDoesNotExist] for the identity's environment,
    [get_segment_ids] returns the empty list: a missing environment is
    swallowed like a missing identity. *)
Theorem segment_ids_environment_missing (s : St) (uuid : string)
    (item : value) (rest : list value) (m : IdentityModel) :
  uuid <> "" ->
  Items (fst (table_query s (uuid_query uuid))) = item :: rest ->
  identity_model_validate item = Ok m ->
  fst (environment_get_item (snd (table_query s (uuid_query uuid)))
         (identity_environment_api_key m))
  = Raise ObjectDoesNotExist ->
  fst (get_segment_ids table_query IdentityModel EnvironmentModel
         identity_model_validate identity_environment_api_key
         environment_get_item environment_model_validate context_segment_ids
         s (Some uuid) None) = Ok [].
Proof.
  intros Hne Hitems Hvalid Henv.
  unfold get_segment_ids. cbn [str_truthy].
  apply String.eqb_neq in Hne. rewrite Hne. cbn [negb orb].
  unfold resolve_segment_ids, get_item_from_uuid, query_items.
  cbn [from_option fst snd]. unfold id. rewrite Hitems. cbn.
  rewrite Hvalid. cbn. by rewrite Henv.
Qed.

(** X18.  When the identity is found by its uuid, validates, and its
    environment is found and validates, [get_segment_ids] returns the
    segment ids the flag engine computes for that environment and
    identity. *)
Theorem segment_ids_of_found_identity (s : St) (uuid : string)
    (item : value) (rest : list value) (m : IdentityModel)
    (document : value) (environment : EnvironmentModel) (ids : list Z) :
  uuid <> "" ->
  Items (fst (table_query s (uuid_query uuid))) = item :: rest ->
  identity_model_validate item = Ok m ->
  fst (environment_get_item (snd (table_query s (uuid_query uuid)))
         (identity_environment_api_key m))
  = Ok document ->
  environment_model_validate document = Ok environment ->
  context_segment_ids environment m = Ok ids ->
  fst (get_segment_ids table_query IdentityModel EnvironmentModel
         identity_model_validate identity_environment_api_key
         environment_get_item environment_model_validate context_segment_ids
         s (Some uuid) None) = Ok ids.
Proof.
  intros Hne Hitems Hvalid Henv Hdoc Hids.
  unfold get_segment_ids. cbn [str_truthy].
  apply String.eqb_neq in Hne. rewrite Hne. cbn [negb orb].
  unfold resolve_segment_ids, get_item_from_uuid, query_items.
  cbn [from_option fst snd]. unfold id. rewrite Hitems. cbn.
  rewrite Hvalid. cbn. rewrite Henv. cbn. rewrite Hdoc. cbn.
  by rewrite Hids.
Qed.

(** X19.  Only [ObjectDoesNotExist] is swallowed: when the item found for
    the uuid fails validation with another exception, [get_segment_ids]
    raises that exception, and the environment wrapper is not called. *)
Theorem segment_ids_validation_error_propagates (s : St) (uuid : string)
    (item : value) (rest : list value) (e : exn) :
  uuid <> "" ->
  Items (fst (table_query s (uuid_query uuid))) = item :: rest ->
  identity_model_validate item = Raise e ->
  e <> ObjectDoesNotExist ->
  get_segment_ids table_query IdentityModel EnvironmentModel
         identity_model_validate identity_environment_api_key
         environment_get_item environment_model_validate context_segment_ids
         s (Some uuid) None
  = (Raise e, snd (table_query s (uuid_query uuid))).
Proof.
  intros Hne Hitems Hvalid He.
  unfold get_segment_ids. cbn [str_truthy].
  apply String.eqb_neq in Hne. rewrite Hne. cbn [negb orb].
  unfold resolve_segment_ids, get_item_from_uuid, query_items.
  cbn [from_option fst snd]. unfold id. rewrite Hitems. cbn.
  rewrite Hvalid. cbn. by destruct e.
Qed.

End SegmentIds.

(** X16.  With an [identity_model], [get_segment_ids] does not consult the
    identity table and ignores [identity_pk]: two calls that differ in the
    table, in how an item would validate and in [identity_pk] give the same
    result and leave the store in the same state. *)
Theorem segment_ids_with_model_skips_lookup {St : Type}
    (table_query table_query' : St -> QueryInput -> QueryOutput * St)
    (IdentityModel EnvironmentModel : Type)
    (identity_model_validate identity_model_validate' :
       value -> result IdentityModel)
    (identity_environment_api_key : IdentityModel -> string)
    (environment_get_item : St -> string -> result value * St)
    (environment_model_validate : value -> result EnvironmentModel)
    (context_segment_ids : EnvironmentModel -> IdentityModel -> result (list Z))
    (s : St) (identity_pk identity_pk' : option string) (m : IdentityModel) :
  get_segment_ids table_query IdentityModel EnvironmentModel
    identity_model_validate identity_environment_api_key environment_get_item
    environment_model_validate context_segment_ids s identity_pk (Some m)
  = get_segment_ids table_query' IdentityModel EnvironmentModel
      identity_model_validate' identity_environment_api_key
      environment_get_item environment_model_validate context_segment_ids
      s identity_pk' (Some m).
Proof. by rewrite !segment_ids_with_model. Qed.

Lemma segment_ids_requires_witness :
  get_segment_ids (scripted (single_page [])) value value
    (fun v => Ok v) (fun _ => "env") (fun s _ => (Ok (VDict []), s))
    (fun v => Ok v) (fun _ _ => Ok [4; 9]) 0%nat (Some "") None
  = (Raise (ValueError "Must provide one of identity_pk or identity_model."),
     0%nat).
Proof.
  refine (segment_ids_requires_an_argument (scripted (single_page []))
            value value (fun v => Ok v) (fun _ => "env")
            (fun s _ => (Ok (VDict []), s)) (fun v => Ok v)
            (fun _ _ => Ok [4; 9]) 0%nat (Some "") _).
  right. reflexivity.
Defined.

Lemma segment_ids_environment_missing_witness :
  fst (get_segment_ids (scripted (single_page [identity_1_1_2])) value value
         (fun v => Ok v) (fun _ => "env")
         (fun s _ => (Raise ObjectDoesNotExist, s))
         (fun v => Ok v) (fun _ _ => Ok [4; 9]) 0%nat (Some "uuid-1") None)
  = Ok [].
Proof.
  refine (segment_ids_environment_missing
            (scripted (single_page [identity_1_1_2])) value value
            (fun v => Ok v) (fun _ => "env")
            (fun s _ => (Raise ObjectDoesNotExist, s))
            (fun v => Ok v) (fun _ _ => Ok [4; 9]) 0%nat "uuid-1"
            identity_1_1_2 [] identity_1_1_2 _ _ _ _).
  - discriminate.
  - reflexivity.
  - reflexivity.
  - reflexivity.
Defined.

Lemma segment_ids_found_witness :
  fst (get_segment_ids (scripted (single_page [identity_1_1_2])) value value
         (fun v => Ok v) (fun _ => "env")
         (fun s _ => (Ok (VDict []), s))
         (fun v => Ok v) (fun _ _ => Ok [4; 9]) 0%nat (Some "uuid-1") None)
  = Ok [4; 9].
Proof.
  refine (segment_ids_of_found_identity
            (scripted (single_page [identity_1_1_2])) value value
            (fun v => Ok v) (fun _ => "env")
            (fun s _ => (Ok (VDict []), s))
            (fun v => Ok v) (fun _ _ => Ok [4; 9]) 0%nat "uuid-1"
            identity_1_1_2 [] identity_1_1_2 (VDict []) (VDict []) [4; 9]
            _ _ _ _ _ _).
  - discriminate.
  - reflexivity.
  - reflexivity.
  - reflexivity.
  - reflexivity.
  - reflexivity.
Defined.

Lemma segment_ids_validation_witness :
  get_segment_ids (scripted (single_page [identity_1_1_2])) value value
    (fun _ => Raise ValidationError) (fun _ => "env")
    (fun s _ => (Ok (VDict []), s))
    (fun v => Ok v) (fun _ _ => Ok [4; 9]) 0%nat (Some "uuid-1") None
  = (Raise ValidationError, 1%nat).
Proof.
  refine (segment_ids_validation_error_propagates
            (scripted (single_page [identity_1_1_2])) value value
            (fun _ => Raise ValidationError) (fun _ => "env")
            (fun s _ => (Ok (VDict []), s))
            (fun v => Ok v) (fun _ _ => Ok [4; 9]) 0%nat "uuid-1"
            identity_1_1_2 [] ValidationError _ _ _ _).
  - discriminate.
  - reflexivity.
  - reflexivity.
  - discriminate.
Defined.

(** ** The budget check precedes every request *)

Lemma scan_loop_requests_within_budget {St : Type}
    (table_query : St -> QueryInput -> QueryOutput * St) fuel B :
  forall s kw sp k,
    (k < length (responses (trace (scan_loop table_query fuel B s kw sp))))%nat ->
    budget_reached
      (fold_left add_capacity
         (firstn k (responses (trace (scan_loop table_query fuel B s kw sp))))
         sp) B
    = false.
Proof.
  induction fuel as [|fuel IH]; intros s kw sp k; [cbn; lia|].
  destruct (budget_reached sp B) eqn:Hb.
  - rewrite scan_loop_raise by done. cbn. lia.
  - rewrite scan_loop_step by done. cbn zeta.
    rewrite trace_emit, responses_app. cbn [page_events responses].
    rewrite responses_yield. cbn [app length].
    destruct k as [|k]; [done|]. cbn [firstn fold_left].
    destruct (has_continuation _); cbn [trace responses length].
    + intros Hk. apply IH. lia.
    + lia.
Qed.

(** X20.  No page is requested once the capacity spent has reached the
    budget: whatever the store and however far the scan got, before each
    request it made the floating-point sum of the capacity figures of the
    pages received until then, added in page order from zero, compared below
    the budget. *)
Theorem scan_never_requests_past_budget {St : Type}
    (table_query : St -> QueryInput -> QueryOutput * St) (fuel : nat) (s : St)
    (environment_api_key : string) (limit : Z)
    (projection_expression : option string) (B : budget)
    (overrides_only : bool) (k : nat) :
  let run := iter_all_items_paginated table_query fuel s environment_api_key
               limit projection_expression B overrides_only in
  (k < length (responses (trace run)))%nat ->
  budget_reached
    (fold_left add_capacity (firstn k (responses (trace run))) 0%float) B
  = false.
Proof. apply scan_loop_requests_within_budget. Qed.

Lemma scan_never_requests_past_budget_witness :
  budget_reached
    (fold_left add_capacity
       (firstn 1 (responses (trace (iter_all_items_paginated
                                      (scripted three_pages) 5 0%nat "env" 10
                                      None (Finite 2) false))))
       0%float)
    (Finite 2)
  = false.
Proof.
  refine (scan_never_requests_past_budget (scripted three_pages) 5 0%nat
            "env" 10 None (Finite 2) false 1 _).
  vm_compute. lia.
Defined.
